(** * Schema comparison report of [schema_validator.py]

    A shallow embedding of [main] from [src/schema_validator.py]: the
    reconciliation of two catalog snapshots (tables and columns of a source
    and a target schema), the per-attribute PASS/FAIL verdicts, the
    assembly of the 18-field result rows and the final mismatch filter.

    Python values are modelled as follows.
    - [str] is [string]; a value that may be [None] is an [option].
    - [int] is [Z]; [str(n)] on an [int] is the decimal printer [pretty].
    - [set] of names is [gset string]; a [dict] keyed by column name is
      [gmap string _]; [sorted(s)] is a merge sort of [elements s] by the
      code-point order [String.le].
    - the Snowpark session is a read-only snapshot of the two
      [information_schema] views, queried with [filter] and a projection.
    - an exception is a value of [Exn] in the error monad [M]. *)

From stdpp Require Import base tactics option list sorting gmap strings pretty.
From Stdlib Require Import ZArith Ascii.

Local Set Warnings "-clear-no-such-hyp".

Local Open Scope string_scope.

(** ** Data model *)

(** A row of [<db>.information_schema.tables], with the columns [main] reads. *)
Record TableRow := mkTableRow {
  t_TABLE_SCHEMA : string;
  t_TABLE_NAME : string
}.

(** A row of [<db>.information_schema.columns], with the columns [main] reads. *)
Record ColumnRow := mkColumnRow {
  c_TABLE_SCHEMA : string;
  c_TABLE_NAME : string;
  c_COLUMN_NAME : string;
  c_DATA_TYPE : option string;
  c_NUMERIC_SCALE : option Z;
  c_NUMERIC_PRECISION : option Z;
  c_CHARACTER_MAXIMUM_LENGTH : option Z
}.

(** The projection [.select("COLUMN_NAME", "DATA_TYPE", "NUMERIC_SCALE",
    "NUMERIC_PRECISION", "CHARACTER_MAXIMUM_LENGTH")]. *)
Record Row := mkRow {
  COLUMN_NAME : string;
  DATA_TYPE : option string;
  NUMERIC_SCALE : option Z;
  NUMERIC_PRECISION : option Z;
  CHARACTER_MAXIMUM_LENGTH : option Z
}.

(** [session.table(f"{db}.information_schema.tables")] and
    [session.table(f"{db}.information_schema.columns")]. *)
Record Session := mkSession {
  information_schema_tables : string → list TableRow;
  information_schema_columns : string → list ColumnRow
}.

(** One tuple appended to [results], with the field names of
    [result_schema]. *)
Record ResultRow := mkResultRow {
  SOURCE_TABLE_NAME : string;
  TARGET_TABLE_NAME : string;
  STATUS_TABLE_NAME : string;
  SOURCE_COLUMN_NAME : string;
  TARGET_COLUMN_NAME : string;
  STATUS_COLUMN_NAME : string;
  SOURCE_DATA_TYPE : string;
  TARGET_DATA_TYPE : string;
  STATUS_DATA_TYPE : string;
  SOURCE_CHARACTER_MAXIMUM_LENGTH : string;
  TARGET_CHARACTER_MAXIMUM_LENGTH : string;
  STATUS_CHARACTER_MAXIMUM_LENGTH : string;
  SOURCE_SCALE : string;
  TARGET_SCALE : string;
  STATUS_SCALE : string;
  SOURCE_PRECISION : string;
  TARGET_PRECISION : string;
  STATUS_PRECISION : string
}.

Global Instance TableRow_eq_dec : EqDecision TableRow.
Proof. solve_decision. Defined.
Global Instance Row_eq_dec : EqDecision Row.
Proof. solve_decision. Defined.
Global Instance ResultRow_eq_dec : EqDecision ResultRow.
Proof. solve_decision. Defined.

(** ** Exceptions *)

Inductive Exn :=
  | UnboundLocalError (var : string).

Definition M (A : Type) : Type := Exn + A.

Global Instance M_ret : MRet M := λ A a, inr a.
Global Instance M_bind : MBind M := λ A B k m,
  match m with
  | inl e => inl e
  | inr a => k a
  end.
Definition raise {A} (e : Exn) : M A := inl e.

(** A [for] loop whose body may raise. *)
Fixpoint for_each {A S} (body : S → A → M S) (st : S) (l : list A) : M S :=
  match l with
  | [] => mret st
  | x :: l' => st' ← body st x; for_each body st' l'
  end.

(** A local variable that is assigned on some paths only. *)
Inductive Binding (A : Type) :=
  | Unbound
  | Bound (a : A).
Arguments Unbound {A}.
Arguments Bound {A} a.

(** ** Constants *)

Definition EXCLUDED_COLUMNS : gset string :=
  {[ "CREATED_AT"; "UPDATED_AT"; "CREATED_BY"; "UPDATED_BY"; "LOAD_TIMESTAMP" ]}.

Definition db1 : string := "source_database".
Definition schema1 : string := "source_schema".
Definition db2 : string := "target_database".
Definition schema2 : string := "target_schema".

(** [sorted(s)] for a set of strings. *)
Definition sorted (s : gset string) : list string :=
  merge_sort String.le (elements s).

(** ** Catalog queries *)

(** [session.table(f"{db}.information_schema.tables")
      .filter(col("TABLE_SCHEMA") == schema).select("TABLE_NAME")] *)
Definition table_list (s : Session) (db schema : string) : list string :=
  t_TABLE_NAME <$>
    filter (λ r, t_TABLE_SCHEMA r = schema) (information_schema_tables s db).

Definition table1_set (s : Session) : gset string :=
  list_to_set (table_list s db1 schema1).
Definition table2_set (s : Session) : gset string :=
  list_to_set (table_list s db2 schema2).

Definition all_tables (s : Session) : gset string :=
  table1_set s ∪ table2_set s.

(** [table2_query], collected into [table2_rows]. *)
Definition table2_rows (s : Session) (table_name : string) : list string :=
  t_TABLE_NAME <$>
    filter (λ r, t_TABLE_NAME r = table_name)
      (filter (λ r, t_TABLE_SCHEMA r = schema2)
         (information_schema_tables s db2)).

Definition select (r : ColumnRow) : Row :=
  {| COLUMN_NAME := c_COLUMN_NAME r;
     DATA_TYPE := c_DATA_TYPE r;
     NUMERIC_SCALE := c_NUMERIC_SCALE r;
     NUMERIC_PRECISION := c_NUMERIC_PRECISION r;
     CHARACTER_MAXIMUM_LENGTH := c_CHARACTER_MAXIMUM_LENGTH r |}.

(** The query behind [table1_columns] and [table2_columns]. *)
Definition table_columns (s : Session) (db schema table : string) : list Row :=
  select <$>
    filter (λ r, c_COLUMN_NAME r ∉ EXCLUDED_COLUMNS)
      (filter (λ r, c_TABLE_NAME r = table)
         (filter (λ r, c_TABLE_SCHEMA r = schema)
            (information_schema_columns s db))).

(** [{row["COLUMN_NAME"]: row for row in rows}]: a later row replaces an
    earlier one of the same name. *)
Definition columns_dict (rows : list Row) : gmap string Row :=
  foldl (λ d row, <[COLUMN_NAME row := row]> d) ∅ rows.

(** ** Stringification of one side (lines 168-195) *)

(** [row["DATA_TYPE"] if row["DATA_TYPE"] else "NULL"]: [None] and the
    empty string are both falsy. *)
Definition str_data_type (d : option string) : string :=
  match d with
  | Some x => if decide (x = "") then "NULL" else x
  | None => "NULL"
  end.

(** [str(v) if v is not None else "NULL"]. *)
Definition str_number (v : option Z) : string :=
  match v with
  | Some n => pretty n
  | None => "NULL"
  end.

Record Side := mkSide {
  data_type : string;
  scale : string;
  precision : string;
  char_max_length : string;
  column_name : string
}.

Definition side (columns : gmap string Row) (name : string) : Side :=
  match columns !! name with
  | Some row =>
      {| data_type := str_data_type (DATA_TYPE row);
         scale := str_number (NUMERIC_SCALE row);
         precision := str_number (NUMERIC_PRECISION row);
         char_max_length := str_number (CHARACTER_MAXIMUM_LENGTH row);
         column_name := COLUMN_NAME row |}
  | None =>
      {| data_type := "NULL";
         scale := "NULL";
         precision := "NULL";
         char_max_length := "NULL";
         column_name := "NULL" |}
  end.

(** ** Verdicts (lines 197-249) *)

Definition status_column_name (table1_column_name table2_column_name : string) : string :=
  if decide (table1_column_name ≠ "NULL" ∧ table2_column_name ≠ "NULL") then
    if decide (table1_column_name = table2_column_name) then "PASS" else "FAIL"
  else "FAIL".

Definition status_data_type (data_type1 data_type2 : string) : string :=
  if decide (data_type1 ≠ "NULL" ∧ data_type2 ≠ "NULL") then
    if decide (data_type1 = data_type2) then "PASS" else "FAIL"
  else "FAIL".

Definition status_char_max_length (char_max_length1 char_max_length2 : string) : string :=
  if decide (char_max_length1 ≠ "NULL" ∧ char_max_length2 ≠ "NULL") then
    if decide (char_max_length1 = char_max_length2) then "PASS"
    else if decide (char_max_length1 = "16777216" ∧ char_max_length2 = "8388607") then "PASS"
    else "FAIL"
  else if decide (char_max_length1 = "NULL" ∧ char_max_length2 = "NULL") then "PASS"
  else "FAIL".

Definition status_scale (scale1 scale2 : string) : string :=
  if decide (scale1 ≠ "NULL" ∧ scale2 ≠ "NULL") then
    if decide (scale1 = scale2) then "PASS" else "FAIL"
  else if decide (scale1 = "NULL" ∧ scale2 = "NULL") then "PASS"
  else "FAIL".

Definition status_precision (precision1 precision2 : string) : string :=
  if decide (precision1 ≠ "NULL" ∧ precision2 ≠ "NULL") then
    if decide (precision1 = precision2) then "PASS" else "FAIL"
  else if decide (precision1 = "NULL" ∧ precision2 = "NULL") then "PASS"
  else "FAIL".

(** [table1 != table2_name], on values that are a [str] or [None]. *)
Definition status_table_name (table1 table2_name : option string) : string :=
  if decide (table1 ≠ table2_name) then "FAIL" else "PASS".

(** ** Row assembly (lines 166-267) *)

(** The body of the loop over [sorted(all_columns)]: the tuple appended to
    [results] for one column name. *)
Definition compare_column (table1 table2_name : option string)
    (table1_columns_dict table2_columns_dict : gmap string Row)
    (name : string) : ResultRow :=
  let s1 := side table1_columns_dict name in
  let s2 := side table2_columns_dict name in
  {| SOURCE_TABLE_NAME := default "NULL" table1;
     TARGET_TABLE_NAME := default "NULL" table2_name;
     STATUS_TABLE_NAME := status_table_name table1 table2_name;
     SOURCE_COLUMN_NAME := column_name s1;
     TARGET_COLUMN_NAME := column_name s2;
     STATUS_COLUMN_NAME := status_column_name (column_name s1) (column_name s2);
     SOURCE_DATA_TYPE := data_type s1;
     TARGET_DATA_TYPE := data_type s2;
     STATUS_DATA_TYPE := status_data_type (data_type s1) (data_type s2);
     SOURCE_CHARACTER_MAXIMUM_LENGTH := char_max_length s1;
     TARGET_CHARACTER_MAXIMUM_LENGTH := char_max_length s2;
     STATUS_CHARACTER_MAXIMUM_LENGTH :=
       status_char_max_length (char_max_length s1) (char_max_length s2);
     SOURCE_SCALE := scale s1;
     TARGET_SCALE := scale s2;
     STATUS_SCALE := status_scale (scale s1) (scale s2);
     SOURCE_PRECISION := precision s1;
     TARGET_PRECISION := precision s2;
     STATUS_PRECISION := status_precision (precision s1) (precision s2) |}.

(** Lines 128-160: the column dictionary of one side; empty when the table
    is absent on that side. *)
Definition side_columns_dict (s : Session) (db schema : string)
    (table : option string) : gmap string Row :=
  match table with
  | Some t => columns_dict (table_columns s db schema t)
  | None => ∅
  end.

(** Lines 127-267 for one table, once [table1] and [table2_name] are known. *)
Definition compare_table (s : Session) (table1 table2_name : option string)
    : list ResultRow :=
  let table1_columns_dict := side_columns_dict s db1 schema1 table1 in
  let table2_columns_dict := side_columns_dict s db2 schema2 table2_name in
  let all_columns := dom table1_columns_dict ∪ dom table2_columns_dict in
  compare_column table1 table2_name table1_columns_dict table2_columns_dict
    <$> sorted all_columns.

(** ** The loop over [sorted(all_tables)] (lines 98-267) *)

(** State carried from one iteration to the next: the list [results] and
    the local [table2_name], which the branch at line 116 leaves as it was
    when [table2_rows] is empty. *)
Record LoopState := mkLoopState {
  results : list ResultRow;
  table2_name : Binding (option string)
}.

(** Lines 102-105. *)
Definition table1_of (s : Session) (table_name : string) : option string :=
  if decide (table_name ∈ table1_set s) then Some table_name else None.

(** Lines 108-119. *)
Definition table2_name_of (s : Session) (prev : Binding (option string))
    (table_name : string) : Binding (option string) :=
  if decide (table_name ∈ table2_set s) then
    match table2_rows s table_name with
    | name :: _ => Bound (Some name)
    | [] => prev
    end
  else Bound None.

Definition loop_body (s : Session) (st : LoopState) (table_name : string)
    : M LoopState :=
  let table1 := table1_of s table_name in
  let b := table2_name_of s (table2_name st) table_name in
  match b with
  | Unbound => raise (UnboundLocalError "table2_name")
  | Bound t2 =>
      mret {| results := results st ++ compare_table s table1 t2;
             table2_name := b |}
  end.

(** Lines 95-267: the list [results] when the loop is over. *)
Definition assemble (s : Session) : M (list ResultRow) :=
  st ← for_each (loop_body s) {| results := []; table2_name := Unbound |}
         (sorted (all_tables s));
  mret (results st).

(** ** Ordering and filtering (lines 271-289) *)

(** The key order of [order_by("SOURCE_TABLE_NAME", "TARGET_TABLE_NAME")].
    The order of rows with equal keys is not fixed by the query; the
    theorems below depend on the rows of the report only up to
    permutation. *)
Definition key_le (r1 r2 : ResultRow) : Prop :=
  SOURCE_TABLE_NAME r1 ≠ SOURCE_TABLE_NAME r2 ∧
    String.le (SOURCE_TABLE_NAME r1) (SOURCE_TABLE_NAME r2)
  ∨ SOURCE_TABLE_NAME r1 = SOURCE_TABLE_NAME r2 ∧
    String.le (TARGET_TABLE_NAME r1) (TARGET_TABLE_NAME r2).

Global Instance key_le_dec : RelDecision key_le.
Proof. intros r1 r2. unfold key_le. apply _. Defined.

Definition order_by (rows : list ResultRow) : list ResultRow :=
  merge_sort key_le rows.

(** The condition of [filtered_df]. *)
Definition has_fail (r : ResultRow) : Prop :=
  STATUS_TABLE_NAME r = "FAIL" ∨
  STATUS_COLUMN_NAME r = "FAIL" ∨
  STATUS_DATA_TYPE r = "FAIL" ∨
  STATUS_CHARACTER_MAXIMUM_LENGTH r = "FAIL" ∨
  STATUS_SCALE r = "FAIL" ∨
  STATUS_PRECISION r = "FAIL".

Global Instance has_fail_dec r : Decision (has_fail r).
Proof. unfold has_fail. apply _. Defined.

Definition main (s : Session) : M (list ResultRow) :=
  results ← assemble s;
  let result_df := order_by results in
  let filtered_df := filter has_fail result_df in
  mret filtered_df.

(** ** What one run computes, iteration by iteration *)

(** The value bound to [table2_name] in the iteration of [table_name] on a
    catalog snapshot (see [table2_name_of_snapshot] below). *)
Definition table2_of (s : Session) (table_name : string) : option string :=
  if decide (table_name ∈ table2_set s) then Some table_name else None.

(** The rows appended to [results] by the iteration of [table_name]. *)
Definition table_rows (s : Session) (table_name : string) : list ResultRow :=
  compare_table s (table1_of s table_name) (table2_of s table_name).

(** The list [results] after the loop. *)
Definition full_results (s : Session) : list ResultRow :=
  sorted (all_tables s) ≫= table_rows s.

(** The names of the columns of [table] that the query of lines 131-140
    (or 148-157) returns. *)
Definition column_names (s : Session) (db schema table : string) : gset string :=
  list_to_set (COLUMN_NAME <$> table_columns s db schema table).

(** ** The rules of the specification, in its own words *)

(** "PASS if both absent; FAIL if exactly one absent; else PASS iff equal;
    else FAIL", the rule of the specification for numeric scale and for
    numeric precision, on the values of the two column descriptors. *)
Definition spec_numeric_rule (source target : option Z) : string :=
  match source, target with
  | None, None => "PASS"
  | Some a, Some b => if decide (a = b) then "PASS" else "FAIL"
  | _, _ => "FAIL"
  end.

(** All six verdicts of a row are PASS. *)
Definition all_pass (r : ResultRow) : Prop :=
  STATUS_TABLE_NAME r = "PASS" ∧
  STATUS_COLUMN_NAME r = "PASS" ∧
  STATUS_DATA_TYPE r = "PASS" ∧
  STATUS_CHARACTER_MAXIMUM_LENGTH r = "PASS" ∧
  STATUS_SCALE r = "PASS" ∧
  STATUS_PRECISION r = "PASS".

(** The rows of a report that carry [t] as the source table and the
    sentinel as the target table, and the other way round. *)
Definition of_source_only_table (t : string) (r : ResultRow) : Prop :=
  SOURCE_TABLE_NAME r = t ∧ TARGET_TABLE_NAME r = "NULL".
Definition of_target_only_table (t : string) (r : ResultRow) : Prop :=
  SOURCE_TABLE_NAME r = "NULL" ∧ TARGET_TABLE_NAME r = t.

Global Instance of_source_only_table_dec t r : Decision (of_source_only_table t r).
Proof. unfold of_source_only_table. apply _. Defined.
Global Instance of_target_only_table_dec t r : Decision (of_target_only_table t r).
Proof. unfold of_target_only_table. apply _. Defined.

(** The string the specification puts into a value field for a value of a
    column descriptor: "numeric fields stringified, absent fields as the
    sentinel"; a present text is shown as it is. *)
Definition shown_text (v : option string) : string :=
  match v with
  | Some x => x
  | None => "NULL"
  end.

Definition shown_number (v : option Z) : string :=
  match v with
  | Some n => pretty n
  | None => "NULL"
  end.

(** "STATUS_TABLE_NAME=FAIL and all source-side values populated,
    target-side values = sentinel": the row the specification expects for
    the column descriptor [d] of the catalog, for a table [t] found in the
    source only. The source side shows the values of the descriptor; an
    attribute is judged PASS only where the rule of that attribute passes
    two absent values. *)
Definition source_only_row (t : string) (d : ColumnRow) : ResultRow :=
  {| SOURCE_TABLE_NAME := t;
     TARGET_TABLE_NAME := "NULL";
     STATUS_TABLE_NAME := "FAIL";
     SOURCE_COLUMN_NAME := c_COLUMN_NAME d;
     TARGET_COLUMN_NAME := "NULL";
     STATUS_COLUMN_NAME := "FAIL";
     SOURCE_DATA_TYPE := shown_text (c_DATA_TYPE d);
     TARGET_DATA_TYPE := "NULL";
     STATUS_DATA_TYPE := "FAIL";
     SOURCE_CHARACTER_MAXIMUM_LENGTH := shown_number (c_CHARACTER_MAXIMUM_LENGTH d);
     TARGET_CHARACTER_MAXIMUM_LENGTH := "NULL";
     STATUS_CHARACTER_MAXIMUM_LENGTH :=
       spec_numeric_rule (c_CHARACTER_MAXIMUM_LENGTH d) None;
     SOURCE_SCALE := shown_number (c_NUMERIC_SCALE d);
     TARGET_SCALE := "NULL";
     STATUS_SCALE := spec_numeric_rule (c_NUMERIC_SCALE d) None;
     SOURCE_PRECISION := shown_number (c_NUMERIC_PRECISION d);
     TARGET_PRECISION := "NULL";
     STATUS_PRECISION := spec_numeric_rule (c_NUMERIC_PRECISION d) None |}.

(** The descriptor [d] without its data type. *)
Definition with_absent_data_type (d : ColumnRow) : ColumnRow :=
  {| c_TABLE_SCHEMA := c_TABLE_SCHEMA d;
     c_TABLE_NAME := c_TABLE_NAME d;
     c_COLUMN_NAME := c_COLUMN_NAME d;
     c_DATA_TYPE := None;
     c_NUMERIC_SCALE := c_NUMERIC_SCALE d;
     c_NUMERIC_PRECISION := c_NUMERIC_PRECISION d;
     c_CHARACTER_MAXIMUM_LENGTH := c_CHARACTER_MAXIMUM_LENGTH d |}.

(** What the report shows of a descriptor: a data type that is the empty
    string counts as no data type at all. *)
Definition as_reported (d : ColumnRow) : ColumnRow :=
  if decide (c_DATA_TYPE d = Some "") then with_absent_data_type d else d.

(** ** Small catalogs used as examples *)

(** A session whose source schema holds [tables1] and [columns1] and whose
    target schema holds [tables2] and [columns2]. *)
Definition snapshot (tables1 : list TableRow) (columns1 : list ColumnRow)
    (tables2 : list TableRow) (columns2 : list ColumnRow) : Session :=
  {| information_schema_tables := λ db,
       if decide (db = db1) then tables1
       else if decide (db = db2) then tables2 else [];
     information_schema_columns := λ db,
       if decide (db = db1) then columns1
       else if decide (db = db2) then columns2 else [] |}.

(** A text column present on both sides with the lengths of the tolerance
    exception. *)
Definition row_text_16777216 : Row :=
  {| COLUMN_NAME := "NAME"; DATA_TYPE := Some "TEXT"; NUMERIC_SCALE := None;
     NUMERIC_PRECISION := None; CHARACTER_MAXIMUM_LENGTH := Some 16777216%Z |}.
Definition row_text_8388607 : Row :=
  {| COLUMN_NAME := "NAME"; DATA_TYPE := Some "TEXT"; NUMERIC_SCALE := None;
     NUMERIC_PRECISION := None; CHARACTER_MAXIMUM_LENGTH := Some 8388607%Z |}.

(** A column whose data type is the four-character text NULL. *)
Definition row_type_NULL : Row :=
  {| COLUMN_NAME := "C"; DATA_TYPE := Some "NULL"; NUMERIC_SCALE := None;
     NUMERIC_PRECISION := None; CHARACTER_MAXIMUM_LENGTH := None |}.

(** Two spellings of one data type. *)
Definition row_type_upper : Row :=
  {| COLUMN_NAME := "C"; DATA_TYPE := Some "TEXT"; NUMERIC_SCALE := None;
     NUMERIC_PRECISION := None; CHARACTER_MAXIMUM_LENGTH := None |}.
Definition row_type_lower : Row :=
  {| COLUMN_NAME := "C"; DATA_TYPE := Some "text"; NUMERIC_SCALE := None;
     NUMERIC_PRECISION := None; CHARACTER_MAXIMUM_LENGTH := None |}.

(** Table T on both sides, with one column C whose data type is the empty
    string on both sides and whose scale is zero on both sides. *)
Definition session_empty_data_type : Session :=
  snapshot
    [mkTableRow schema1 "T"]
    [mkColumnRow schema1 "T" "C" (Some "") (Some 0%Z) None None]
    [mkTableRow schema2 "T"]
    [mkColumnRow schema2 "T" "C" (Some "") (Some 0%Z) None None].

(** Source tables A and B, target tables B and C. Table A has one compared
    column and one audit column; table B has on both sides a column whose
    name is the text NULL; table C has an audit column only. *)
Definition session_demo : Session :=
  snapshot
    [mkTableRow schema1 "A"; mkTableRow schema1 "B"; mkTableRow "other" "Z"]
    [mkColumnRow schema1 "A" "ID" (Some "NUMBER") (Some 0%Z) (Some 38%Z) None;
     mkColumnRow schema1 "A" "CREATED_AT" (Some "TIMESTAMP_NTZ") None None None;
     mkColumnRow schema1 "B" "NAME" (Some "TEXT") None None (Some 16777216%Z);
     mkColumnRow schema1 "B" "NULL" (Some "TEXT") None None (Some 10%Z)]
    [mkTableRow schema2 "B"; mkTableRow schema2 "C"]
    [mkColumnRow schema2 "B" "NAME" (Some "TEXT") None None (Some 8388607%Z);
     mkColumnRow schema2 "B" "NULL" (Some "TEXT") None None (Some 10%Z);
     mkColumnRow schema2 "C" "UPDATED_AT" (Some "TIMESTAMP_NTZ") None None None].

(** ** Further definitions of [main] *)

(** Lines 58-59: the tables found on one side only, as logged. *)
Definition additional_tables_in_schema1 (s : Session) : gset string :=
  table1_set s ∖ table2_set s.
Definition additional_tables_in_schema2 (s : Session) : gset string :=
  table2_set s ∖ table1_set s.

(** The rows of a report that carry [t] on both sides. *)
Definition of_two_sided_table (t : string) (r : ResultRow) : Prop :=
  SOURCE_TABLE_NAME r = t ∧ TARGET_TABLE_NAME r = t.

Global Instance of_two_sided_table_dec t r : Decision (of_two_sided_table t r).
Proof. unfold of_two_sided_table. apply _. Defined.

(** The row expected for the column descriptor [d] of the catalog, for a
    table [t] found in the target only: the mirror image of
    [source_only_row]. *)
Definition target_only_row (t : string) (d : ColumnRow) : ResultRow :=
  {| SOURCE_TABLE_NAME := "NULL";
     TARGET_TABLE_NAME := t;
     STATUS_TABLE_NAME := "FAIL";
     SOURCE_COLUMN_NAME := "NULL";
     TARGET_COLUMN_NAME := c_COLUMN_NAME d;
     STATUS_COLUMN_NAME := "FAIL";
     SOURCE_DATA_TYPE := "NULL";
     TARGET_DATA_TYPE := shown_text (c_DATA_TYPE d);
     STATUS_DATA_TYPE := "FAIL";
     SOURCE_CHARACTER_MAXIMUM_LENGTH := "NULL";
     TARGET_CHARACTER_MAXIMUM_LENGTH := shown_number (c_CHARACTER_MAXIMUM_LENGTH d);
     STATUS_CHARACTER_MAXIMUM_LENGTH :=
       spec_numeric_rule None (c_CHARACTER_MAXIMUM_LENGTH d);
     SOURCE_SCALE := "NULL";
     TARGET_SCALE := shown_number (c_NUMERIC_SCALE d);
     STATUS_SCALE := spec_numeric_rule None (c_NUMERIC_SCALE d);
     SOURCE_PRECISION := "NULL";
     TARGET_PRECISION := shown_number (c_NUMERIC_PRECISION d);
     STATUS_PRECISION := spec_numeric_rule None (c_NUMERIC_PRECISION d) |}.

(** A data type that line 170 keeps as it is and that is not the text of
    the sentinel. *)
Definition plain_data_type (d : option string) : Prop :=
  ∃ x, d = Some x ∧ x ≠ "" ∧ x ≠ "NULL".

(** The same two tables with the same columns in both schemas. *)
Definition session_same : Session :=
  snapshot
    [mkTableRow schema1 "ORDERS"; mkTableRow schema1 "USERS"]
    [mkColumnRow schema1 "ORDERS" "ID" (Some "NUMBER") (Some 0%Z) (Some 38%Z) None;
     mkColumnRow schema1 "ORDERS" "AMOUNT" (Some "NUMBER") (Some 2%Z) (Some 10%Z) None;
     mkColumnRow schema1 "ORDERS" "CREATED_AT" (Some "TIMESTAMP_NTZ") None None None;
     mkColumnRow schema1 "USERS" "NAME" (Some "TEXT") None None (Some 16777216%Z)]
    [mkTableRow schema2 "USERS"; mkTableRow schema2 "ORDERS"]
    [mkColumnRow schema2 "USERS" "NAME" (Some "TEXT") None None (Some 16777216%Z);
     mkColumnRow schema2 "ORDERS" "ID" (Some "NUMBER") (Some 0%Z) (Some 38%Z) None;
     mkColumnRow schema2 "ORDERS" "AMOUNT" (Some "NUMBER") (Some 2%Z) (Some 10%Z) None;
     mkColumnRow schema2 "ORDERS" "UPDATED_BY" (Some "TEXT") None None (Some 20%Z)].

(** Table T on both sides, with a column EXTRA in the source only, and a
    table NEW in the target only. *)
Definition session_drift : Session :=
  snapshot
    [mkTableRow schema1 "T"]
    [mkColumnRow schema1 "T" "ID" (Some "NUMBER") (Some 0%Z) (Some 38%Z) None;
     mkColumnRow schema1 "T" "EXTRA" (Some "TEXT") None None (Some 10%Z)]
    [mkTableRow schema2 "T"; mkTableRow schema2 "NEW"]
    [mkColumnRow schema2 "T" "ID" (Some "NUMBER") (Some 0%Z) (Some 38%Z) None;
     mkColumnRow schema2 "NEW" "ID" (Some "NUMBER") (Some 0%Z) (Some 38%Z) None;
     mkColumnRow schema2 "NEW" "LOAD_TIMESTAMP" (Some "TIMESTAMP_NTZ") None None None].

(** [session_demo] with other audit columns: none for table A, two with
    unequal descriptors for table B, none for table C. *)
Definition session_demo_other_audit : Session :=
  snapshot
    [mkTableRow schema1 "A"; mkTableRow schema1 "B"; mkTableRow "other" "Z"]
    [mkColumnRow schema1 "A" "ID" (Some "NUMBER") (Some 0%Z) (Some 38%Z) None;
     mkColumnRow schema1 "B" "NAME" (Some "TEXT") None None (Some 16777216%Z);
     mkColumnRow schema1 "B" "UPDATED_AT" (Some "DATE") None None None;
     mkColumnRow schema1 "B" "NULL" (Some "TEXT") None None (Some 10%Z)]
    [mkTableRow schema2 "B"; mkTableRow schema2 "C"]
    [mkColumnRow schema2 "B" "UPDATED_AT" (Some "TEXT") None None (Some 5%Z);
     mkColumnRow schema2 "B" "NAME" (Some "TEXT") None None (Some 8388607%Z);
     mkColumnRow schema2 "B" "NULL" (Some "TEXT") None None (Some 10%Z)].

(** Table T in the source only, with one column C whose data type is the
    empty string. *)
Definition column_with_empty_data_type : ColumnRow :=
  mkColumnRow schema1 "T" "C" (Some "") None None (Some 10%Z).

Definition session_source_only_empty_data_type : Session :=
  snapshot [mkTableRow schema1 "T"] [column_with_empty_data_type] [] [].

(** * Properties *)

(** ** The decimal printer never produces the sentinel *)

Lemma pretty_N_char_digit (x : N) :
  pretty_N_char x ∈ ["0"; "1"; "2"; "3"; "4"; "5"; "6"; "7"; "8"; "9"]%char.
Proof. unfold pretty_N_char. repeat case_match; set_solver. Qed.

Lemma pretty_N_go_head (x : N) (acc : string) (a : ascii) (rest : string) :
  a ∉ ["0"; "1"; "2"; "3"; "4"; "5"; "6"; "7"; "8"; "9"]%char →
  acc ≠ String a rest → pretty_N_go x acc ≠ String a rest.
Proof.
  intros Ha. revert acc.
  induction (N.lt_wf_0 x) as [x _ IH]; intros acc Hacc.
  destruct (decide (x = 0%N)) as [->|Hx].
  - by rewrite pretty_N_go_0.
  - rewrite pretty_N_go_step by lia.
    apply IH; [apply N.div_lt; lia|].
    intros [= Hc _]. apply Ha. rewrite <-Hc. apply pretty_N_char_digit.
Qed.

Lemma pretty_N_ne_NULL (x : N) : pretty x ≠ "NULL".
Proof.
  unfold pretty, pretty_N. case_decide; [done|].
  apply pretty_N_go_head; [|done].
  rewrite !elem_of_cons, elem_of_nil. intros Hd. intuition discriminate.
Qed.

Lemma pretty_Z_ne_NULL (n : Z) : pretty n ≠ "NULL".
Proof.
  destruct n as [|p|p]; unfold pretty, pretty_Z; [done| |done].
  apply pretty_N_ne_NULL.
Qed.

Lemma str_number_NULL (v : option Z) : str_number v = "NULL" ↔ v = None.
Proof.
  destruct v as [n|]; simpl; [|done].
  split; [|done]. intros H. by apply pretty_Z_ne_NULL in H.
Qed.

Lemma str_number_inj (v w : option Z) : str_number v = str_number w → v = w.
Proof.
  destruct v as [n|], w as [m|]; simpl; intros H.
  - f_equal. by apply (inj pretty).
  - by apply pretty_Z_ne_NULL in H.
  - symmetry in H. by apply pretty_Z_ne_NULL in H.
  - done.
Qed.

(** ** [sorted] lists each element of the set once *)

Lemma sorted_Permutation (X : gset string) : sorted X ≡ₚ elements X.
Proof. apply merge_sort_Permutation. Qed.

Lemma elem_of_sorted (X : gset string) (x : string) : x ∈ sorted X ↔ x ∈ X.
Proof. by rewrite sorted_Permutation, elem_of_elements. Qed.

Lemma NoDup_sorted (X : gset string) : NoDup (sorted X).
Proof. rewrite sorted_Permutation. apply NoDup_elements. Qed.

Lemma sorted_empty : sorted ∅ = [].
Proof. unfold sorted. by rewrite elements_empty. Qed.

Lemma sorted_Sorted (X : gset string) : Sorted String.le (sorted X).
Proof. apply (Sorted_merge_sort String.le). Qed.

(** ** Catalog queries *)

Lemma elem_of_table_list (s : Session) (db schema t : string) :
  t ∈ table_list s db schema ↔
  mkTableRow schema t ∈ information_schema_tables s db.
Proof.
  unfold table_list. rewrite list_elem_of_fmap. split.
  - intros ([sch n] & -> & [Hs ?]%list_elem_of_filter). simpl in *. by subst.
  - intros H. exists (mkTableRow schema t). split; [done|].
    by apply list_elem_of_filter.
Qed.

Lemma elem_of_table1_set (s : Session) (t : string) :
  t ∈ table1_set s ↔ mkTableRow schema1 t ∈ information_schema_tables s db1.
Proof. unfold table1_set. by rewrite elem_of_list_to_set, elem_of_table_list. Qed.

Lemma elem_of_table2_set (s : Session) (t : string) :
  t ∈ table2_set s ↔ mkTableRow schema2 t ∈ information_schema_tables s db2.
Proof. unfold table2_set. by rewrite elem_of_list_to_set, elem_of_table_list. Qed.

(** The second lookup of a target table (lines 110-115) finds it again. *)
Lemma table2_rows_cons (s : Session) (t : string) :
  t ∈ table2_set s → ∃ rest, table2_rows s t = t :: rest.
Proof.
  rewrite elem_of_table2_set. unfold table2_rows. intros Hin.
  assert (mkTableRow schema2 t ∈
    filter (λ r, t_TABLE_NAME r = t)
      (filter (λ r, t_TABLE_SCHEMA r = schema2)
         (information_schema_tables s db2))) as Hf.
  { by rewrite !list_elem_of_filter. }
  destruct (filter _ _) as [|r l] eqn:Heq; [by apply elem_of_nil in Hf|].
  assert (r ∈ r :: l) as Hr by left.
  rewrite <-Heq in Hr. apply list_elem_of_filter in Hr as [Hr _].
  rewrite fmap_cons, Hr. eauto.
Qed.

(** ** The column dictionary *)

Lemma columns_dict_snoc (rows : list Row) (row : Row) :
  columns_dict (rows ++ [row]) = <[COLUMN_NAME row := row]> (columns_dict rows).
Proof. unfold columns_dict. by rewrite foldl_app. Qed.

Lemma columns_dict_lookup_Some (rows : list Row) (c : string) (row : Row) :
  columns_dict rows !! c = Some row → row ∈ rows ∧ COLUMN_NAME row = c.
Proof.
  revert row. induction rows as [|r rows IH] using rev_ind; intros row.
  - unfold columns_dict. simpl. by rewrite lookup_empty.
  - rewrite columns_dict_snoc, lookup_insert. case_decide as Hc.
    + intros [= <-]. split; [|done]. apply elem_of_app. right. by left.
    + intros [? ?]%IH. split; [|done]. apply elem_of_app. by left.
Qed.

Lemma dom_columns_dict (rows : list Row) :
  dom (columns_dict rows) = list_to_set (COLUMN_NAME <$> rows).
Proof.
  induction rows as [|r rows IH] using rev_ind.
  - unfold columns_dict. simpl. by rewrite dom_empty_L.
  - rewrite columns_dict_snoc, dom_insert_L, IH, fmap_app, list_to_set_app_L.
    simpl. set_solver.
Qed.

Lemma table_columns_not_excluded (s : Session) (db schema t : string) (row : Row) :
  row ∈ table_columns s db schema t → COLUMN_NAME row ∉ EXCLUDED_COLUMNS.
Proof.
  unfold table_columns. rewrite list_elem_of_fmap.
  intros (r & -> & [Hex _]%list_elem_of_filter). done.
Qed.

Lemma elem_of_column_names (s : Session) (db schema t c : string) :
  c ∈ column_names s db schema t ↔
  (c ∉ EXCLUDED_COLUMNS) ∧
  ∃ r, r ∈ information_schema_columns s db ∧ c_TABLE_SCHEMA r = schema ∧
       c_TABLE_NAME r = t ∧ c_COLUMN_NAME r = c.
Proof.
  unfold column_names, table_columns.
  rewrite elem_of_list_to_set, <-list_fmap_compose, list_elem_of_fmap.
  split.
  - intros (r & -> & Hr). rewrite !list_elem_of_filter in Hr.
    destruct Hr as (? & ? & ? & ?). split; [done|]. by exists r.
  - intros (Hex & r & ? & ? & ? & <-). exists r. split; [done|].
    by rewrite !list_elem_of_filter.
Qed.

Lemma dom_side_columns_dict (s : Session) (db schema : string) (t : option string) :
  dom (side_columns_dict s db schema t) =
  match t with Some t => column_names s db schema t | None => ∅ end.
Proof.
  destruct t as [t|]; simpl; [apply dom_columns_dict|apply dom_empty_L].
Qed.

Lemma side_columns_dict_lookup_Some (s : Session) (db schema : string)
    (t : option string) (c : string) (row : Row) :
  side_columns_dict s db schema t !! c = Some row →
  COLUMN_NAME row = c ∧ (c ∉ EXCLUDED_COLUMNS) ∧
  ∃ t', t = Some t' ∧ row ∈ table_columns s db schema t'.
Proof.
  destruct t as [t|]; simpl; [|by rewrite lookup_empty].
  intros [Hin <-]%columns_dict_lookup_Some.
  split; [done|]. split; [by eapply table_columns_not_excluded|eauto].
Qed.

(** ** The loop over the tables *)

Lemma table2_name_of_snapshot (s : Session) (prev : Binding (option string))
    (t : string) :
  table2_name_of s prev t = Bound (table2_of s t).
Proof.
  unfold table2_name_of, table2_of. case_decide as Hin; [|done].
  by destruct (table2_rows_cons s t Hin) as [rest ->].
Qed.

Lemma loop_body_spec (s : Session) (st : LoopState) (t : string) :
  loop_body s st t =
  inr {| results := results st ++ table_rows s t;
         table2_name := Bound (table2_of s t) |}.
Proof. unfold loop_body. by rewrite table2_name_of_snapshot. Qed.

Lemma for_each_loop_body (s : Session) (ts : list string) (st : LoopState) :
  ∃ b, for_each (loop_body s) st ts =
       inr {| results := results st ++ (ts ≫= table_rows s); table2_name := b |}.
Proof.
  revert st. induction ts as [|t ts IH]; intros st; simpl.
  - exists (table2_name st). rewrite app_nil_r. by destruct st.
  - rewrite loop_body_spec. simpl.
    destruct (IH {| results := results st ++ table_rows s t;
                    table2_name := Bound (table2_of s t) |}) as [b ->].
    exists b. simpl. by rewrite <-app_assoc.
Qed.

Lemma assemble_spec (s : Session) : assemble s = inr (full_results s).
Proof.
  unfold assemble, full_results.
  destruct (for_each_loop_body s (sorted (all_tables s))
              {| results := []; table2_name := Unbound |}) as [b ->].
  done.
Qed.

Lemma main_spec (s : Session) :
  main s = inr (filter has_fail (order_by (full_results s))).
Proof. unfold main. by rewrite assemble_spec. Qed.

Lemma order_by_Permutation (rows : list ResultRow) : order_by rows ≡ₚ rows.
Proof. apply merge_sort_Permutation. Qed.

Lemma elem_of_full_results (s : Session) (r : ResultRow) :
  r ∈ full_results s ↔ ∃ t, t ∈ all_tables s ∧ r ∈ table_rows s t.
Proof.
  unfold full_results. rewrite list_elem_of_bind.
  split; intros (t & ? & ?); exists t; by rewrite ?elem_of_sorted in *.
Qed.

Lemma elem_of_table_rows (s : Session) (t : string) (r : ResultRow) :
  r ∈ table_rows s t ↔
  ∃ c, c ∈ dom (side_columns_dict s db1 schema1 (table1_of s t))
           ∪ dom (side_columns_dict s db2 schema2 (table2_of s t)) ∧
       r = compare_column (table1_of s t) (table2_of s t)
             (side_columns_dict s db1 schema1 (table1_of s t))
             (side_columns_dict s db2 schema2 (table2_of s t)) c.
Proof.
  unfold table_rows, compare_table. rewrite list_elem_of_fmap.
  split; intros (c & ? & ?); exists c; by rewrite ?elem_of_sorted in *.
Qed.

(** ** The verdicts *)

Lemma status_table_name_cases (t1 t2 : option string) :
  status_table_name t1 t2 = "PASS" ∨ status_table_name t1 t2 = "FAIL".
Proof. unfold status_table_name. case_decide; auto. Qed.

Lemma status_column_name_cases (x y : string) :
  status_column_name x y = "PASS" ∨ status_column_name x y = "FAIL".
Proof. unfold status_column_name. repeat case_decide; auto. Qed.

Lemma status_data_type_cases (x y : string) :
  status_data_type x y = "PASS" ∨ status_data_type x y = "FAIL".
Proof. unfold status_data_type. repeat case_decide; auto. Qed.

Lemma status_char_max_length_cases (x y : string) :
  status_char_max_length x y = "PASS" ∨ status_char_max_length x y = "FAIL".
Proof. unfold status_char_max_length. repeat case_decide; auto. Qed.

Lemma status_scale_cases (x y : string) :
  status_scale x y = "PASS" ∨ status_scale x y = "FAIL".
Proof. unfold status_scale. repeat case_decide; auto. Qed.

Lemma status_precision_cases (x y : string) :
  status_precision x y = "PASS" ∨ status_precision x y = "FAIL".
Proof. unfold status_precision. repeat case_decide; auto. Qed.

(** Scale and precision are decided by one and the same function of the two
    strings. *)
Lemma status_precision_scale (x y : string) :
  status_precision x y = status_scale x y.
Proof. done. Qed.

Lemma status_scale_numeric (v w : option Z) :
  status_scale (str_number v) (str_number w) = spec_numeric_rule v w.
Proof.
  unfold status_scale.
  destruct (decide (str_number v ≠ "NULL" ∧ str_number w ≠ "NULL"))
    as [[Hv Hw]|Hn].
  - rewrite str_number_NULL in Hv, Hw.
    destruct v as [a|]; [|by destruct Hv].
    destruct w as [b|]; [|by destruct Hw].
    cbv beta iota delta [spec_numeric_rule].
    destruct (decide (a = b)) as [->|Hab].
    + by rewrite decide_True by reflexivity.
    + rewrite decide_False; [reflexivity|].
      intros H%str_number_inj. congruence.
  - destruct (decide (str_number v = "NULL" ∧ str_number w = "NULL"))
      as [[Hv Hw]|Hn2].
    + rewrite str_number_NULL in Hv, Hw. by subst.
    + destruct v as [a|], w as [b|]; try reflexivity.
      * destruct Hn. split; rewrite str_number_NULL; discriminate.
      * destruct Hn2. split; reflexivity.
Qed.

Lemma pretty_16777216 : pretty 16777216%Z = "16777216".
Proof. vm_compute. reflexivity. Qed.

Lemma pretty_8388607 : pretty 8388607%Z = "8388607".
Proof. vm_compute. reflexivity. Qed.

Lemma status_char_max_length_numeric (a b : Z) :
  status_char_max_length (pretty a) (pretty b) =
  if decide (a = b ∨ a = 16777216%Z ∧ b = 8388607%Z) then "PASS" else "FAIL".
Proof.
  unfold status_char_max_length.
  rewrite decide_True by (split; apply pretty_Z_ne_NULL).
  rewrite <-pretty_16777216, <-pretty_8388607.
  destruct (decide (a = b)) as [->|Hab].
  - rewrite decide_True by reflexivity.
    rewrite decide_True by (left; reflexivity). reflexivity.
  - rewrite (decide_False (P := pretty a = pretty b))
      by (intros H%(inj pretty); contradiction).
    destruct (decide (a = 16777216%Z ∧ b = 8388607%Z)) as [[-> ->]|Hn].
    + rewrite decide_True by (split; reflexivity). reflexivity.
    + rewrite (decide_False (P := pretty a = pretty _ ∧ pretty b = pretty _))
        by (intros [H1%(inj pretty) H2%(inj pretty)]; apply Hn; by split).
      rewrite (decide_False (P := a = b ∨ _))
        by (intros [?|?]; contradiction).
      reflexivity.
Qed.

Lemma side_scale (d : gmap string Row) (c : string) :
  scale (side d c) = str_number (d !! c ≫= NUMERIC_SCALE).
Proof. unfold side. by destruct (d !! c). Qed.

Lemma side_precision (d : gmap string Row) (c : string) :
  precision (side d c) = str_number (d !! c ≫= NUMERIC_PRECISION).
Proof. unfold side. by destruct (d !! c). Qed.

Lemma side_char_max_length (d : gmap string Row) (c : string) :
  char_max_length (side d c) = str_number (d !! c ≫= CHARACTER_MAXIMUM_LENGTH).
Proof. unfold side. by destruct (d !! c). Qed.

Lemma side_data_type (d : gmap string Row) (c : string) :
  data_type (side d c) = str_data_type (d !! c ≫= DATA_TYPE).
Proof. unfold side. by destruct (d !! c). Qed.

(** C1: with both lengths present, the pair (16777216, 8388607) passes, the
    reverse pair (8388607, 16777216) fails, and any other pair passes
    exactly when the two lengths are equal. *)
Theorem char_max_length_tolerance_is_directional
    (table1 table2_name : option string) (d1 d2 : gmap string Row)
    (c : string) (a b : Z) :
  d1 !! c ≫= CHARACTER_MAXIMUM_LENGTH = Some a →
  d2 !! c ≫= CHARACTER_MAXIMUM_LENGTH = Some b →
  let verdict :=
    STATUS_CHARACTER_MAXIMUM_LENGTH
      (compare_column table1 table2_name d1 d2 c) in
  (a = 16777216%Z → b = 8388607%Z → verdict = "PASS") ∧
  (a = 8388607%Z → b = 16777216%Z → verdict = "FAIL") ∧
  (¬ (a = 16777216%Z ∧ b = 8388607%Z) →
     (verdict = "PASS" ↔ a = b) ∧ (verdict = "FAIL" ↔ a ≠ b)).
Proof.
  intros H1 H2. cbv zeta. unfold compare_column.
  cbn [STATUS_CHARACTER_MAXIMUM_LENGTH].
  rewrite !side_char_max_length, H1, H2. cbn [str_number].
  rewrite status_char_max_length_numeric.
  split_and!.
  - intros -> ->. done.
  - intros -> ->. done.
  - intros Hne. case_decide as Hd.
    + destruct Hd as [->|?]; [|done]. split; split; done.
    + split; split; try done.
      * intros ->. destruct Hd. by left.
      * intros _ ->. destruct Hd. by left.
Qed.

Lemma char_max_length_tolerance_is_directional_witness :
  let d1 : gmap string Row := {[ "NAME" := row_text_16777216 ]} in
  let d2 : gmap string Row := {[ "NAME" := row_text_8388607 ]} in
  d1 !! "NAME" ≫= CHARACTER_MAXIMUM_LENGTH = Some 16777216%Z ∧
  d2 !! "NAME" ≫= CHARACTER_MAXIMUM_LENGTH = Some 8388607%Z ∧
  STATUS_CHARACTER_MAXIMUM_LENGTH
    (compare_column (Some "T") (Some "T") d1 d2 "NAME") = "PASS" ∧
  STATUS_CHARACTER_MAXIMUM_LENGTH
    (compare_column (Some "T") (Some "T") d2 d1 "NAME") = "FAIL".
Proof.
  intros d1 d2. split; [reflexivity|]. split; [reflexivity|]. split.
  - refine (proj1 (char_max_length_tolerance_is_directional
      (Some "T") (Some "T") d1 d2 "NAME" 16777216 8388607 _ _) _ _);
      reflexivity.
  - refine (proj1 (proj2 (char_max_length_tolerance_is_directional
      (Some "T") (Some "T") d2 d1 "NAME" 8388607 16777216 _ _)) _ _);
      reflexivity.
Defined.

(** C3: numeric scale and numeric precision are each judged by the rule
    "PASS if both absent, FAIL if exactly one absent, else PASS iff equal",
    and precision is judged by the same rule as scale. *)
Theorem scale_and_precision_follow_the_numeric_rule
    (table1 table2_name : option string) (d1 d2 : gmap string Row) (c : string) :
  let r := compare_column table1 table2_name d1 d2 c in
  STATUS_SCALE r =
    spec_numeric_rule (d1 !! c ≫= NUMERIC_SCALE) (d2 !! c ≫= NUMERIC_SCALE) ∧
  STATUS_PRECISION r =
    spec_numeric_rule (d1 !! c ≫= NUMERIC_PRECISION) (d2 !! c ≫= NUMERIC_PRECISION).
Proof.
  cbv zeta. unfold compare_column. cbn [STATUS_SCALE STATUS_PRECISION].
  rewrite !side_scale, !side_precision. split.
  - apply status_scale_numeric.
  - exact (status_scale_numeric _ _).
Qed.

(** What [spec_numeric_rule] says, case by case. *)
Lemma spec_numeric_rule_cases (x y : option Z) :
  (x = None → y = None → spec_numeric_rule x y = "PASS") ∧
  (x = None → is_Some y → spec_numeric_rule x y = "FAIL") ∧
  (is_Some x → y = None → spec_numeric_rule x y = "FAIL") ∧
  (∀ a b, x = Some a → y = Some b →
     (spec_numeric_rule x y = "PASS" ↔ a = b) ∧
     (spec_numeric_rule x y = "FAIL" ↔ a ≠ b)).
Proof.
  split_and!.
  - by intros -> ->.
  - by intros -> [b ->].
  - by intros [a ->] ->.
  - intros a b -> ->. simpl. case_decide; split; split; done.
Qed.

(** ** The data type verdict *)

Lemma str_data_type_id (a : string) : a ≠ "" → str_data_type (Some a) = a.
Proof. intros Ha. simpl. by rewrite decide_False. Qed.

(** C2, as the code has it: the data type verdict is FAIL when the data
    type is absent on either side or is the text NULL on either side; when
    both data types are present, not empty and not the text NULL, the
    verdict is PASS exactly when the two strings are equal. *)
Theorem data_type_rule
    (table1 table2_name : option string) (d1 d2 : gmap string Row) (c : string) :
  let r := compare_column table1 table2_name d1 d2 c in
  let x1 := d1 !! c ≫= DATA_TYPE in
  let x2 := d2 !! c ≫= DATA_TYPE in
  (x1 = None ∨ x2 = None ∨ x1 = Some "NULL" ∨ x2 = Some "NULL" →
     STATUS_DATA_TYPE r = "FAIL") ∧
  (∀ a b, x1 = Some a → x2 = Some b →
     a ≠ "" → b ≠ "" → a ≠ "NULL" → b ≠ "NULL" →
     (STATUS_DATA_TYPE r = "PASS" ↔ a = b) ∧
     (STATUS_DATA_TYPE r = "FAIL" ↔ a ≠ b)).
Proof.
  cbv zeta. unfold compare_column. cbn [STATUS_DATA_TYPE].
  rewrite !side_data_type. unfold status_data_type. split.
  - intros Hx. rewrite decide_False; [done|].
    intros [H1 H2]. destruct Hx as [Hx|[Hx|[Hx|Hx]]]; rewrite Hx in *; by simpl in *.
  - intros a b -> -> Ha Hb Ha' Hb'. rewrite !str_data_type_id by done.
    rewrite decide_True by done.
    case_decide; split; split; done.
Qed.

Lemma data_type_rule_witness :
  let upper : gmap string Row := {[ "C" := row_type_upper ]} in
  let lower : gmap string Row := {[ "C" := row_type_lower ]} in
  upper !! "C" ≫= DATA_TYPE = Some "TEXT" ∧
  lower !! "C" ≫= DATA_TYPE = Some "text" ∧
  STATUS_DATA_TYPE (compare_column (Some "T") (Some "T") upper upper "C") = "PASS" ∧
  STATUS_DATA_TYPE (compare_column (Some "T") (Some "T") upper lower "C") = "FAIL".
Proof.
  intros upper lower. split; [reflexivity|]. split; [reflexivity|]. split.
  - refine (proj2 (proj1 (proj2 (data_type_rule
      (Some "T") (Some "T") upper upper "C") "TEXT" "TEXT" _ _ _ _ _ _)) _);
      (reflexivity || discriminate).
  - refine (proj2 (proj2 (proj2 (data_type_rule
      (Some "T") (Some "T") upper lower "C") "TEXT" "text" _ _ _ _ _ _)) _);
      (reflexivity || discriminate).
Defined.

(** C2 as written fails: a data type present on both sides and equal on
    both sides, the text NULL, gets the verdict FAIL. *)
Lemma data_type_rule_fails_on_text_NULL :
  let d : gmap string Row := {[ "C" := row_type_NULL ]} in
  d !! "C" ≫= DATA_TYPE = Some "NULL" ∧
  STATUS_DATA_TYPE (compare_column (Some "T") (Some "T") d d "C") = "FAIL" ∧
  ¬ (STATUS_DATA_TYPE (compare_column (Some "T") (Some "T") d d "C") = "PASS"
     ↔ "NULL" = "NULL").
Proof.
  intros d. split; [reflexivity|]. split; [reflexivity|].
  intros [_ H]. specialize (H eq_refl). vm_compute in H. discriminate.
Qed.

(** C8: the empty data type of column C is turned into the sentinel, and
    the equal data types of the two sides then fail; the zero scale of the
    same column is kept as the text 0 and passes. *)
Theorem empty_data_type_becomes_the_sentinel :
  str_data_type (Some "") = "NULL" ∧
  str_number (Some 0%Z) = "0" ∧
  main session_empty_data_type =
  inr [ {| SOURCE_TABLE_NAME := "T"; TARGET_TABLE_NAME := "T";
           STATUS_TABLE_NAME := "PASS";
           SOURCE_COLUMN_NAME := "C"; TARGET_COLUMN_NAME := "C";
           STATUS_COLUMN_NAME := "PASS";
           SOURCE_DATA_TYPE := "NULL"; TARGET_DATA_TYPE := "NULL";
           STATUS_DATA_TYPE := "FAIL";
           SOURCE_CHARACTER_MAXIMUM_LENGTH := "NULL";
           TARGET_CHARACTER_MAXIMUM_LENGTH := "NULL";
           STATUS_CHARACTER_MAXIMUM_LENGTH := "PASS";
           SOURCE_SCALE := "0"; TARGET_SCALE := "0"; STATUS_SCALE := "PASS";
           SOURCE_PRECISION := "NULL"; TARGET_PRECISION := "NULL";
           STATUS_PRECISION := "PASS" |} ].
Proof. split_and!; vm_compute; reflexivity. Qed.

(** The numeric attributes keep the sentinel for the absent value only. *)
Lemma str_number_sentinel_only_when_absent (v : option Z) :
  str_number v = "NULL" ↔ v = None.
Proof. apply str_number_NULL. Qed.

(** ** The table verdict *)

Lemma status_table_name_snapshot (s : Session) (t : string) :
  t ∈ all_tables s →
  (status_table_name (table1_of s t) (table2_of s t) = "PASS" ↔
     t ∈ table1_set s ∧ t ∈ table2_set s) ∧
  (status_table_name (table1_of s t) (table2_of s t) = "FAIL" ↔
     ¬ (t ∈ table1_set s ∧ t ∈ table2_set s)).
Proof.
  unfold all_tables, status_table_name, table1_of, table2_of.
  intros [H1|H2]%elem_of_union; repeat case_decide; naive_solver.
Qed.

(** C4: in the iteration of a table of the union, the table verdict put on
    every row is PASS exactly when the table is on both sides, in which case
    the two recorded names are the table name itself, and FAIL otherwise. *)
Theorem table_verdict_is_presence_on_both_sides
    (s : Session) (st : LoopState) (t : string) :
  t ∈ all_tables s →
  ∃ table2_name rows,
    loop_body s st t =
      inr {| results := results st ++ rows; table2_name := Bound table2_name |} ∧
    (status_table_name (table1_of s t) table2_name = "PASS" ↔
       t ∈ table1_set s ∧ t ∈ table2_set s) ∧
    (status_table_name (table1_of s t) table2_name = "FAIL" ↔
       ¬ (t ∈ table1_set s ∧ t ∈ table2_set s)) ∧
    (t ∈ table1_set s → t ∈ table2_set s →
       table1_of s t = Some t ∧ table2_name = Some t) ∧
    (∀ r, r ∈ rows →
       STATUS_TABLE_NAME r = status_table_name (table1_of s t) table2_name).
Proof.
  intros Ht. exists (table2_of s t), (table_rows s t).
  destruct (status_table_name_snapshot s t Ht) as [Hpass Hfail].
  split_and!; try done.
  - apply loop_body_spec.
  - intros H1 H2. unfold table1_of, table2_of. by rewrite !decide_True.
  - intros r (c & _ & ->)%elem_of_table_rows. done.
Qed.

(** ** The rows of the report *)

Lemma table_rows_statuses (s : Session) (t : string) (r : ResultRow) :
  r ∈ table_rows s t → has_fail r ∨ all_pass r.
Proof.
  intros (c & _ & ->)%elem_of_table_rows.
  unfold has_fail, all_pass, compare_column. simpl.
  destruct (status_table_name_cases (table1_of s t) (table2_of s t)) as [->| ->];
    [|by auto].
  match goal with |- context [status_column_name ?x ?y] =>
    destruct (status_column_name_cases x y) as [->| ->]; [|by auto] end.
  match goal with |- context [status_data_type ?x ?y] =>
    destruct (status_data_type_cases x y) as [->| ->]; [|by auto 10] end.
  match goal with |- context [status_char_max_length ?x ?y] =>
    destruct (status_char_max_length_cases x y) as [->| ->]; [|by auto 10] end.
  match goal with |- context [status_scale ?x ?y] =>
    destruct (status_scale_cases x y) as [->| ->]; [|by auto 10] end.
  match goal with |- context [status_precision ?x ?y] =>
    destruct (status_precision_cases x y) as [->| ->]; [|by auto 10] end.
  right. done.
Qed.

Lemma has_fail_not_all_pass (r : ResultRow) : has_fail r → ¬ all_pass r.
Proof.
  unfold has_fail, all_pass.
  intros Hf (H1 & H2 & H3 & H4 & H5 & H6).
  rewrite H1, H2, H3, H4, H5, H6 in Hf.
  repeat (destruct Hf as [Hf|Hf]; [discriminate|]). discriminate.
Qed.

(** C5: a row of the full list [results] is in the returned report exactly
    when one of its six verdicts is FAIL; a row whose six verdicts are all
    PASS is not in the report. *)
Theorem report_keeps_exactly_the_failing_rows (s : Session) :
  ∃ results report,
    assemble s = inr results ∧
    main s = inr report ∧
    report ≡ₚ filter has_fail results ∧
    (∀ r, r ∈ results → (r ∈ report ↔ has_fail r)) ∧
    (∀ r, r ∈ results → (r ∈ report ↔ ¬ all_pass r)) ∧
    (∀ r, r ∈ report → r ∈ results ∧ ¬ all_pass r).
Proof.
  exists (full_results s), (filter has_fail (order_by (full_results s))).
  split; [apply assemble_spec|]. split; [apply main_spec|].
  assert (∀ r, r ∈ filter has_fail (order_by (full_results s)) ↔
               has_fail r ∧ r ∈ full_results s) as Hin.
  { intros r. by rewrite list_elem_of_filter, order_by_Permutation. }
  split_and!.
  - by rewrite order_by_Permutation.
  - intros r Hr. rewrite Hin. naive_solver.
  - intros r Hr. rewrite Hin. split.
    + intros [Hf _]. by apply has_fail_not_all_pass.
    + intros Hn. split; [|done].
      apply elem_of_full_results in Hr as (t & _ & Hr).
      by destruct (table_rows_statuses s t r Hr).
  - intros r [Hf Hr]%Hin. split; [done|]. by apply has_fail_not_all_pass.
Qed.

(** ** Excluded columns *)

Lemma side_column_name (d : gmap string Row) (c : string) :
  column_name (side d c) = from_option COLUMN_NAME "NULL" (d !! c).
Proof. unfold side. by destruct (d !! c). Qed.

Lemma NULL_not_excluded : "NULL" ∉ EXCLUDED_COLUMNS.
Proof. vm_compute. intros H. discriminate. Qed.

Lemma table_rows_column_names (s : Session) (t : string) (r : ResultRow) :
  r ∈ table_rows s t →
  (SOURCE_COLUMN_NAME r ∉ EXCLUDED_COLUMNS) ∧
  (TARGET_COLUMN_NAME r ∉ EXCLUDED_COLUMNS).
Proof.
  intros (c & _ & ->)%elem_of_table_rows.
  unfold compare_column. cbn [SOURCE_COLUMN_NAME TARGET_COLUMN_NAME].
  rewrite !side_column_name. split.
  - destruct (side_columns_dict s db1 schema1 _ !! c) as [row|] eqn:Hrow;
      simpl; [|apply NULL_not_excluded].
    apply side_columns_dict_lookup_Some in Hrow as (-> & ? & _). done.
  - destruct (side_columns_dict s db2 schema2 _ !! c) as [row|] eqn:Hrow;
      simpl; [|apply NULL_not_excluded].
    apply side_columns_dict_lookup_Some in Hrow as (-> & ? & _). done.
Qed.

(** C6: no row of the list [results], and so no row of the report, names an
    excluded column as its source column or as its target column. *)
Theorem excluded_columns_are_never_reported (s : Session) :
  ∃ results report,
    assemble s = inr results ∧
    main s = inr report ∧
    ∀ r c, c ∈ EXCLUDED_COLUMNS → r ∈ results ∨ r ∈ report →
      SOURCE_COLUMN_NAME r ≠ c ∧ TARGET_COLUMN_NAME r ≠ c.
Proof.
  exists (full_results s), (filter has_fail (order_by (full_results s))).
  split; [apply assemble_spec|]. split; [apply main_spec|].
  intros r c Hc Hr.
  assert (r ∈ full_results s) as (t & _ & Hrows)%elem_of_full_results.
  { destruct Hr as [?|Hr]; [done|].
    apply list_elem_of_filter in Hr as [_ Hr].
    by rewrite order_by_Permutation in Hr. }
  destruct (table_rows_column_names s t r Hrows) as [H1 H2].
  split; intros <-; done.
Qed.

Lemma elem_of_EXCLUDED_COLUMNS (c : string) :
  c ∈ EXCLUDED_COLUMNS ↔
  c = "CREATED_AT" ∨ c = "UPDATED_AT" ∨ c = "CREATED_BY" ∨ c = "UPDATED_BY" ∨
  c = "LOAD_TIMESTAMP".
Proof. unfold EXCLUDED_COLUMNS. set_solver. Qed.

(** ** Filtering a concatenation *)

Section filter_bind.
Context {A B : Type} (P : B → Prop) `{!∀ x, Decision (P x)}.

Lemma filter_all (l : list B) : (∀ x, x ∈ l → P x) → filter P l = l.
Proof.
  induction l as [|x l IH]; intros Hl; [done|].
  rewrite filter_cons_True by (apply Hl; left).
  f_equal. apply IH. intros y Hy. apply Hl. by right.
Qed.

Lemma filter_none (l : list B) : (∀ x, x ∈ l → ¬ P x) → filter P l = [].
Proof.
  induction l as [|x l IH]; intros Hl; [done|].
  rewrite filter_cons_False by (apply Hl; left).
  apply IH. intros y Hy. apply Hl. by right.
Qed.

Lemma filter_ext_elem_of (Q : B → Prop) `{!∀ x, Decision (Q x)} (l : list B) :
  (∀ x, x ∈ l → (P x ↔ Q x)) → filter P l = filter Q l.
Proof.
  induction l as [|x l IH]; intros Hl; [done|].
  assert (filter P l = filter Q l) as Htl.
  { apply IH. intros y Hy. apply Hl. by right. }
  assert (P x ↔ Q x) as Hx by (apply Hl; left).
  rewrite !filter_cons, Htl.
  destruct (decide (P x)), (decide (Q x)); naive_solver.
Qed.

Lemma filter_bind_none (f : A → list B) (ts : list A) :
  (∀ u r, u ∈ ts → r ∈ f u → ¬ P r) → filter P (ts ≫= f) = [].
Proof.
  intros Hts. apply filter_none.
  intros r (u & ? & ?)%list_elem_of_bind. by eapply Hts.
Qed.

Lemma filter_bind_single (f : A → list B) (ts : list A) (t : A) :
  NoDup ts → t ∈ ts →
  (∀ r, r ∈ f t → P r) →
  (∀ u r, u ∈ ts → u ≠ t → r ∈ f u → ¬ P r) →
  filter P (ts ≫= f) = f t.
Proof.
  intros Hnd Ht Hin Hout.
  induction Hnd as [|u ts Hu Hnd IH]; [by apply elem_of_nil in Ht|].
  rewrite bind_cons, filter_app.
  apply elem_of_cons in Ht as [->|Ht].
  - rewrite filter_all by done.
    rewrite filter_bind_none; [by rewrite app_nil_r|].
    intros v r Hv. apply Hout; [by right|]. intros ->. done.
  - assert (u ≠ t) as Hne by (intros ->; done).
    rewrite filter_none.
    + simpl. apply IH; [done|].
      intros v r Hv. apply Hout. by right.
    + intros r. apply Hout; [by left|done].
Qed.
End filter_bind.

(** ** Which iteration a row comes from *)

Lemma table_rows_table_names (s : Session) (u : string) (r : ResultRow) :
  r ∈ table_rows s u →
  SOURCE_TABLE_NAME r = default "NULL" (table1_of s u) ∧
  TARGET_TABLE_NAME r = default "NULL" (table2_of s u) ∧
  STATUS_TABLE_NAME r = status_table_name (table1_of s u) (table2_of s u).
Proof. intros (c & _ & ->)%elem_of_table_rows. done. Qed.

(** A row that carries [t] with the sentinel on the other side, or that
    carries a [t] other than the sentinel, was made in the iteration of [t]. *)
Lemma table_rows_origin (s : Session) (t u : string) (r : ResultRow) :
  u ∈ all_tables s → r ∈ table_rows s u →
  of_source_only_table t r ∨ of_target_only_table t r ∨
    t ≠ "NULL" ∧ (SOURCE_TABLE_NAME r = t ∨ TARGET_TABLE_NAME r = t) →
  u = t.
Proof.
  intros Hu (Hs & Ht & _)%table_rows_table_names.
  unfold of_source_only_table, of_target_only_table.
  rewrite Hs, Ht. clear Hs Ht.
  apply elem_of_union in Hu. unfold table1_of, table2_of.
  repeat case_decide; simpl; naive_solver.
Qed.

Lemma report_rows (s : Session) (r : ResultRow) :
  r ∈ filter has_fail (order_by (full_results s)) ↔
  has_fail r ∧ ∃ u, u ∈ all_tables s ∧ r ∈ table_rows s u.
Proof.
  by rewrite list_elem_of_filter, order_by_Permutation, elem_of_full_results.
Qed.

Lemma table_rows_source_only (s : Session) (t : string) :
  t ∈ table1_set s → t ∉ table2_set s →
  table_rows s t =
  compare_column (Some t) None (columns_dict (table_columns s db1 schema1 t)) ∅
    <$> sorted (column_names s db1 schema1 t).
Proof.
  intros H1 H2. unfold table_rows, compare_table, table1_of, table2_of.
  rewrite decide_True, decide_False by done. simpl.
  by rewrite dom_empty_L, (right_id_L ∅ (∪)), dom_columns_dict.
Qed.

Lemma table_rows_target_only (s : Session) (t : string) :
  t ∉ table1_set s → t ∈ table2_set s →
  table_rows s t =
  compare_column None (Some t) ∅ (columns_dict (table_columns s db2 schema2 t))
    <$> sorted (column_names s db2 schema2 t).
Proof.
  intros H1 H2. unfold table_rows, compare_table, table1_of, table2_of.
  rewrite decide_False, decide_True by done. simpl.
  by rewrite dom_empty_L, (left_id_L ∅ (∪)), dom_columns_dict.
Qed.

(** The rows of the report marked as those of a source-only table are the
    rows of its iteration. *)
Lemma report_of_source_only_table (s : Session) (t : string) :
  t ∈ table1_set s → t ∉ table2_set s →
  filter (of_source_only_table t) (filter has_fail (order_by (full_results s)))
  ≡ₚ table_rows s t.
Proof.
  intros H1 H2.
  assert (∀ r, r ∈ table_rows s t → of_source_only_table t r ∧ has_fail r) as Ht.
  { intros r (Hs & Htg & Hst)%table_rows_table_names.
    unfold of_source_only_table, has_fail. rewrite Hs, Htg, Hst.
    unfold table1_of, table2_of, status_table_name.
    rewrite (decide_True (P := t ∈ table1_set s)) by done.
    rewrite (decide_False (P := t ∈ table2_set s)) by done.
    rewrite decide_True by done. auto. }
  rewrite order_by_Permutation, list_filter_filter.
  rewrite (filter_ext_elem_of _ (of_source_only_table t)).
  - unfold full_results. rewrite (filter_bind_single _ _ _ t).
    + done.
    + apply NoDup_sorted.
    + apply elem_of_sorted, elem_of_union. by left.
    + intros r Hr. by apply Ht.
    + intros u r Hu%elem_of_sorted Hne Hr Hp. apply Hne.
      apply (table_rows_origin s t u r); auto.
  - intros r (u & Hu & Hr)%elem_of_full_results. split; [by intros [? _]|].
    intros Hp. split; [done|].
    assert (u = t) as -> by (apply (table_rows_origin s t u r); auto).
    by apply Ht.
Qed.

Lemma status_char_max_length_absent_target (v : option Z) :
  status_char_max_length (str_number v) "NULL" = spec_numeric_rule v None.
Proof.
  unfold status_char_max_length.
  rewrite decide_False by (intros [_ H]; by apply H).
  destruct v as [n|]; [|done]. cbn [str_number spec_numeric_rule].
  rewrite decide_False; [done|]. intros [H _]. by apply pretty_Z_ne_NULL in H.
Qed.

Lemma str_data_type_as_reported (d : ColumnRow) :
  str_data_type (c_DATA_TYPE d) = shown_text (c_DATA_TYPE (as_reported d)).
Proof.
  unfold as_reported.
  destruct (decide (c_DATA_TYPE d = Some "")) as [He|Hne].
  - by rewrite He.
  - destruct (c_DATA_TYPE d) as [x|]; [|done].
    unfold str_data_type. rewrite decide_False by congruence. done.
Qed.

Lemma as_reported_other_fields (d : ColumnRow) :
  c_COLUMN_NAME (as_reported d) = c_COLUMN_NAME d ∧
  c_NUMERIC_SCALE (as_reported d) = c_NUMERIC_SCALE d ∧
  c_NUMERIC_PRECISION (as_reported d) = c_NUMERIC_PRECISION d ∧
  c_CHARACTER_MAXIMUM_LENGTH (as_reported d) = c_CHARACTER_MAXIMUM_LENGTH d.
Proof. unfold as_reported. by case_decide. Qed.

Lemma compare_column_source_only (t : string) (dict : gmap string Row)
    (c : string) (d : ColumnRow) :
  dict !! c = Some (select d) →
  compare_column (Some t) None dict ∅ c = source_only_row t (as_reported d).
Proof.
  intros Hrow. unfold compare_column, source_only_row, side.
  rewrite Hrow, lookup_empty.
  destruct (as_reported_other_fields d) as (-> & -> & -> & ->).
  rewrite <-str_data_type_as_reported.
  cbn [data_type scale precision char_max_length column_name default select
       COLUMN_NAME DATA_TYPE NUMERIC_SCALE NUMERIC_PRECISION
       CHARACTER_MAXIMUM_LENGTH].
  f_equal.
  - unfold status_column_name.
    by rewrite decide_False by (intros [_ H]; by apply H).
  - unfold status_data_type.
    by rewrite decide_False by (intros [_ H]; by apply H).
  - apply status_char_max_length_absent_target.
  - apply (status_scale_numeric _ None).
  - exact (status_scale_numeric _ None).
Qed.

Lemma length_sorted (X : gset string) : length (sorted X) = size X.
Proof. by rewrite sorted_Permutation. Qed.

(** ** Tables found on one side only *)

(** C7: for the table T found in the source only, whose one column C has
    the empty string as data type, the report holds one row, with the table
    verdict FAIL and the sentinel in every target field; its source data
    type is the sentinel and not the value of the descriptor, so the row is
    not the row expected for that descriptor. *)
Theorem source_only_row_loses_an_empty_data_type :
  "T" ∈ table1_set session_source_only_empty_data_type ∧
  ("T" ∉ table2_set session_source_only_empty_data_type) ∧
  information_schema_columns session_source_only_empty_data_type db1 =
    [column_with_empty_data_type] ∧
  c_DATA_TYPE column_with_empty_data_type = Some "" ∧
  SOURCE_DATA_TYPE (source_only_row "T" column_with_empty_data_type) = "" ∧
  main session_source_only_empty_data_type =
    inr [source_only_row "T" (with_absent_data_type column_with_empty_data_type)] ∧
  SOURCE_DATA_TYPE
    (source_only_row "T" (with_absent_data_type column_with_empty_data_type)) =
    "NULL" ∧
  main session_source_only_empty_data_type ≠
    inr [source_only_row "T" column_with_empty_data_type].
Proof.
  split_and!; try (vm_compute; reflexivity).
  - vm_compute. discriminate.
  - intros H. vm_compute in H. discriminate H.
Qed.

(** C9: a table found on one side only, for which the query of that side
    returns no column, adds no row in its iteration although its table
    verdict is FAIL, and no row of the report carries it. *)
Theorem one_sided_table_without_columns_is_not_reported
    (s : Session) (t : string) :
  t ∈ table1_set s ∧ (t ∉ table2_set s) ∧ column_names s db1 schema1 t = ∅ ∨
  (t ∉ table1_set s) ∧ t ∈ table2_set s ∧ column_names s db2 schema2 t = ∅ →
  t ∈ all_tables s ∧
  status_table_name (table1_of s t) (table2_of s t) = "FAIL" ∧
  (∀ st, loop_body s st t =
         inr {| results := results st;
                table2_name := Bound (table2_of s t) |}) ∧
  ∃ report,
    main s = inr report ∧
    ∀ r, r ∈ report →
      ¬ of_source_only_table t r ∧ ¬ of_target_only_table t r ∧
      (t ≠ "NULL" → SOURCE_TABLE_NAME r ≠ t ∧ TARGET_TABLE_NAME r ≠ t).
Proof.
  intros Hside.
  assert (t ∈ all_tables s) as Hall.
  { apply elem_of_union. naive_solver. }
  assert (¬ (t ∈ table1_set s ∧ t ∈ table2_set s)) as Hnot by naive_solver.
  assert (table_rows s t = []) as Hrows.
  { destruct Hside as [(H1 & H2 & Hc)|(H1 & H2 & Hc)].
    - by rewrite table_rows_source_only, Hc, sorted_empty.
    - by rewrite table_rows_target_only, Hc, sorted_empty. }
  split_and!.
  - done.
  - by apply status_table_name_snapshot.
  - intros st. by rewrite loop_body_spec, Hrows, app_nil_r.
  - exists (filter has_fail (order_by (full_results s))).
    split; [apply main_spec|].
    intros r (_ & u & Hu & Hr)%report_rows.
    assert (∀ P, P → of_source_only_table t r ∨ of_target_only_table t r ∨
                    t ≠ "NULL" ∧ (SOURCE_TABLE_NAME r = t ∨ TARGET_TABLE_NAME r = t)
                 → False) as Habs.
    { intros P _ Hp. assert (u = t) as -> by by eapply table_rows_origin.
      rewrite Hrows in Hr. by apply elem_of_nil in Hr. }
    split_and!.
    + intros Hp. apply (Habs True I). auto.
    + intros Hp. apply (Habs True I). auto.
    + intros Hne. split; intros Heq; apply (Habs True I); auto.
Qed.

Lemma one_sided_table_without_columns_is_not_reported_witness :
  ("C" ∉ table1_set session_demo) ∧
  "C" ∈ table2_set session_demo ∧
  column_names session_demo db2 schema2 "C" = ∅ ∧
  "C" ∈ all_tables session_demo ∧
  status_table_name (table1_of session_demo "C") (table2_of session_demo "C")
    = "FAIL" ∧
  (∀ st, loop_body session_demo st "C" =
         inr {| results := results st;
                table2_name := Bound (table2_of session_demo "C") |}) ∧
  ∃ report,
    main session_demo = inr report ∧
    ∀ r, r ∈ report →
      ¬ of_source_only_table "C" r ∧ ¬ of_target_only_table "C" r ∧
      ("C" ≠ "NULL" → SOURCE_TABLE_NAME r ≠ "C" ∧ TARGET_TABLE_NAME r ≠ "C").
Proof.
  assert ("C" ∉ table1_set session_demo) as H1 by (vm_compute; discriminate).
  assert ("C" ∈ table2_set session_demo) as H2 by (vm_compute; reflexivity).
  assert (column_names session_demo db2 schema2 "C" = ∅) as H3
    by (vm_compute; reflexivity).
  split; [exact H1|]. split; [exact H2|]. split; [exact H3|].
  apply (one_sided_table_without_columns_is_not_reported session_demo "C").
  right. split; [exact H1|]. split; [exact H2|exact H3].
Defined.

(** ** A column whose name is the text NULL *)

(** C10: when a table of both sides has on both sides a column named NULL,
    the report holds the row of that column, with the table verdict PASS,
    the name NULL on both sides and the column verdict FAIL. *)
Theorem column_named_NULL_fails_the_column_verdict (s : Session) (t : string) :
  t ∈ table1_set s → t ∈ table2_set s →
  "NULL" ∈ column_names s db1 schema1 t →
  "NULL" ∈ column_names s db2 schema2 t →
  let r :=
    compare_column (Some t) (Some t)
      (columns_dict (table_columns s db1 schema1 t))
      (columns_dict (table_columns s db2 schema2 t)) "NULL" in
  ∃ report,
    main s = inr report ∧ r ∈ report ∧
    SOURCE_TABLE_NAME r = t ∧ TARGET_TABLE_NAME r = t ∧
    STATUS_TABLE_NAME r = "PASS" ∧
    SOURCE_COLUMN_NAME r = "NULL" ∧ TARGET_COLUMN_NAME r = "NULL" ∧
    STATUS_COLUMN_NAME r = "FAIL".
Proof.
  intros H1 H2 Hc1 Hc2 r.
  unfold column_names in Hc1, Hc2. rewrite <-dom_columns_dict in Hc1, Hc2.
  pose proof Hc1 as [row1 Hrow1]%elem_of_dom.
  pose proof Hc2 as [row2 Hrow2]%elem_of_dom.
  destruct (columns_dict_lookup_Some _ _ _ Hrow1) as [_ Hn1].
  destruct (columns_dict_lookup_Some _ _ _ Hrow2) as [_ Hn2].
  assert (SOURCE_COLUMN_NAME r = "NULL") as Hs.
  { unfold r, compare_column. cbn [SOURCE_COLUMN_NAME].
    by rewrite side_column_name, Hrow1. }
  assert (TARGET_COLUMN_NAME r = "NULL") as Htg.
  { unfold r, compare_column. cbn [TARGET_COLUMN_NAME].
    by rewrite side_column_name, Hrow2. }
  assert (STATUS_COLUMN_NAME r = "FAIL") as Hst.
  { unfold r, compare_column. cbn [STATUS_COLUMN_NAME].
    rewrite !side_column_name, Hrow1, Hrow2. simpl. by rewrite Hn1, Hn2. }
  exists (filter has_fail (order_by (full_results s))).
  split_and!; try done.
  - apply main_spec.
  - apply report_rows. split; [unfold has_fail; auto|].
    exists t. split; [apply elem_of_union; by left|].
    apply elem_of_table_rows. exists "NULL".
    unfold table1_of, table2_of. rewrite !decide_True by done.
    split; [|done]. simpl. apply elem_of_union. by left.
  - unfold r, compare_column, status_table_name. simpl.
    by rewrite decide_False by (intros H; by apply H).
Qed.

Lemma column_named_NULL_fails_the_column_verdict_witness :
  let r :=
    compare_column (Some "B") (Some "B")
      (columns_dict (table_columns session_demo db1 schema1 "B"))
      (columns_dict (table_columns session_demo db2 schema2 "B")) "NULL" in
  "B" ∈ table1_set session_demo ∧
  "B" ∈ table2_set session_demo ∧
  "NULL" ∈ column_names session_demo db1 schema1 "B" ∧
  "NULL" ∈ column_names session_demo db2 schema2 "B" ∧
  ∃ report,
    main session_demo = inr report ∧ r ∈ report ∧
    SOURCE_TABLE_NAME r = "B" ∧ TARGET_TABLE_NAME r = "B" ∧
    STATUS_TABLE_NAME r = "PASS" ∧
    SOURCE_COLUMN_NAME r = "NULL" ∧ TARGET_COLUMN_NAME r = "NULL" ∧
    STATUS_COLUMN_NAME r = "FAIL".
Proof.
  intros r.
  assert ("B" ∈ table1_set session_demo) as H1 by (vm_compute; reflexivity).
  assert ("B" ∈ table2_set session_demo) as H2 by (vm_compute; reflexivity).
  assert ("NULL" ∈ column_names session_demo db1 schema1 "B") as H3
    by (vm_compute; reflexivity).
  assert ("NULL" ∈ column_names session_demo db2 schema2 "B") as H4
    by (vm_compute; reflexivity).
  split; [exact H1|]. split; [exact H2|]. split; [exact H3|]. split; [exact H4|].
  exact (column_named_NULL_fails_the_column_verdict session_demo "B" H1 H2 H3 H4).
Defined.

Lemma table_verdict_is_presence_on_both_sides_witness :
  "A" ∈ all_tables session_demo ∧
  ∃ table2_name rows,
    loop_body session_demo {| results := []; table2_name := Unbound |} "A" =
      inr {| results := [] ++ rows; table2_name := Bound table2_name |} ∧
    (status_table_name (table1_of session_demo "A") table2_name = "PASS" ↔
       "A" ∈ table1_set session_demo ∧ "A" ∈ table2_set session_demo) ∧
    (status_table_name (table1_of session_demo "A") table2_name = "FAIL" ↔
       ¬ ("A" ∈ table1_set session_demo ∧ "A" ∈ table2_set session_demo)) ∧
    ("A" ∈ table1_set session_demo → "A" ∈ table2_set session_demo →
       table1_of session_demo "A" = Some "A" ∧ table2_name = Some "A") ∧
    (∀ r, r ∈ rows →
       STATUS_TABLE_NAME r =
       status_table_name (table1_of session_demo "A") table2_name).
Proof.
  assert ("A" ∈ all_tables session_demo) as H by (vm_compute; reflexivity).
  split; [exact H|].
  exact (table_verdict_is_presence_on_both_sides session_demo
           {| results := []; table2_name := Unbound |} "A" H).
Defined.

(** * Further properties of [main] *)

(** ** The run as a whole *)

(** X1: the loop never raises, whatever the value of [table2_name] left by
    the iteration before and even when it is still unbound: a table of the
    target set is always found again by the lookup of lines 110-115. So
    [main] returns a report on every catalog. *)
Theorem main_never_raises (s : Session) :
  (∀ st ts e, for_each (loop_body s) st ts ≠ inl e) ∧
  (∀ e, assemble s ≠ inl e) ∧
  ∃ report, main s = inr report.
Proof.
  split_and!.
  - intros st ts e. by destruct (for_each_loop_body s ts st) as [b ->].
  - intros e. by rewrite assemble_spec.
  - eexists. apply main_spec.
Qed.

(** X2: each of the six verdicts of every row of [results] is the text PASS
    or the text FAIL. *)
Theorem verdicts_are_PASS_or_FAIL (s : Session) :
  ∃ results,
    assemble s = inr results ∧
    ∀ r, r ∈ results →
      (STATUS_TABLE_NAME r = "PASS" ∨ STATUS_TABLE_NAME r = "FAIL") ∧
      (STATUS_COLUMN_NAME r = "PASS" ∨ STATUS_COLUMN_NAME r = "FAIL") ∧
      (STATUS_DATA_TYPE r = "PASS" ∨ STATUS_DATA_TYPE r = "FAIL") ∧
      (STATUS_CHARACTER_MAXIMUM_LENGTH r = "PASS" ∨
       STATUS_CHARACTER_MAXIMUM_LENGTH r = "FAIL") ∧
      (STATUS_SCALE r = "PASS" ∨ STATUS_SCALE r = "FAIL") ∧
      (STATUS_PRECISION r = "PASS" ∨ STATUS_PRECISION r = "FAIL").
Proof.
  exists (full_results s). split; [apply assemble_spec|].
  intros r (t & _ & (c & _ & ->)%elem_of_table_rows)%elem_of_full_results.
  unfold compare_column.
  cbn [STATUS_TABLE_NAME STATUS_COLUMN_NAME STATUS_DATA_TYPE
       STATUS_CHARACTER_MAXIMUM_LENGTH STATUS_SCALE STATUS_PRECISION].
  split_and!.
  - apply status_table_name_cases.
  - apply status_column_name_cases.
  - apply status_data_type_cases.
  - apply status_char_max_length_cases.
  - apply status_scale_cases.
  - apply status_precision_cases.
Qed.

(** ** The column name verdict *)

Lemma side_columns_dict_name (s : Session) (db schema : string)
    (t : option string) (c : string) :
  from_option COLUMN_NAME "NULL" (side_columns_dict s db schema t !! c) = c ∨
  side_columns_dict s db schema t !! c = None.
Proof.
  destruct (side_columns_dict s db schema t !! c) as [row|] eqn:Hrow; [|by right].
  left. simpl. by apply side_columns_dict_lookup_Some in Hrow as (? & _).
Qed.

(** X3: in every row of [results] the two column names are equal unless one
    of them is the sentinel, and the column verdict is PASS exactly when
    neither is the sentinel; the FAIL of lines 201-202, for two present
    names that differ, is never taken. *)
Theorem column_verdict_is_PASS_iff_no_sentinel (s : Session) :
  ∃ results,
    assemble s = inr results ∧
    ∀ r, r ∈ results →
      (SOURCE_COLUMN_NAME r = TARGET_COLUMN_NAME r ∨
       SOURCE_COLUMN_NAME r = "NULL" ∨ TARGET_COLUMN_NAME r = "NULL") ∧
      (STATUS_COLUMN_NAME r = "PASS" ↔
       SOURCE_COLUMN_NAME r ≠ "NULL" ∧ TARGET_COLUMN_NAME r ≠ "NULL").
Proof.
  exists (full_results s). split; [apply assemble_spec|].
  intros r (t & _ & (c & _ & ->)%elem_of_table_rows)%elem_of_full_results.
  unfold compare_column.
  cbn [SOURCE_COLUMN_NAME TARGET_COLUMN_NAME STATUS_COLUMN_NAME].
  rewrite !side_column_name.
  assert (from_option COLUMN_NAME "NULL"
            (side_columns_dict s db1 schema1 (table1_of s t) !! c) = c ∨
          from_option COLUMN_NAME "NULL"
            (side_columns_dict s db1 schema1 (table1_of s t) !! c) = "NULL") as H1.
  { destruct (side_columns_dict_name s db1 schema1 (table1_of s t) c) as [?| ->];
      auto. }
  assert (from_option COLUMN_NAME "NULL"
            (side_columns_dict s db2 schema2 (table2_of s t) !! c) = c ∨
          from_option COLUMN_NAME "NULL"
            (side_columns_dict s db2 schema2 (table2_of s t) !! c) = "NULL") as H2.
  { destruct (side_columns_dict_name s db2 schema2 (table2_of s t) c) as [?| ->];
      auto. }
  revert H1 H2.
  generalize (from_option COLUMN_NAME "NULL"
                (side_columns_dict s db1 schema1 (table1_of s t) !! c)).
  generalize (from_option COLUMN_NAME "NULL"
                (side_columns_dict s db2 schema2 (table2_of s t) !! c)).
  intros x2 x1 H1 H2. unfold status_column_name.
  split.
  - destruct H1 as [->|H1], H2 as [->|H2]; auto.
  - case_decide as Hd.
    + rewrite decide_True; [done|].
      destruct Hd. destruct H1 as [->|H1], H2 as [->|H2]; congruence.
    + split; [done|]. intros Hn. by destruct Hd.
Qed.

(** ** The table verdict and the table names of a row *)

Lemma side_empty (c : string) :
  side ∅ c =
  {| data_type := "NULL"; scale := "NULL"; precision := "NULL";
     char_max_length := "NULL"; column_name := "NULL" |}.
Proof. unfold side. by rewrite lookup_empty. Qed.

Lemma status_column_name_sentinel_r (x : string) :
  status_column_name x "NULL" = "FAIL".
Proof.
  unfold status_column_name. by rewrite decide_False by (intros [_ H]; by apply H).
Qed.

Lemma status_column_name_sentinel_l (x : string) :
  status_column_name "NULL" x = "FAIL".
Proof.
  unfold status_column_name. by rewrite decide_False by (intros [H _]; by apply H).
Qed.

Lemma status_data_type_sentinel_r (x : string) :
  status_data_type x "NULL" = "FAIL".
Proof.
  unfold status_data_type. by rewrite decide_False by (intros [_ H]; by apply H).
Qed.

Lemma status_data_type_sentinel_l (x : string) :
  status_data_type "NULL" x = "FAIL".
Proof.
  unfold status_data_type. by rewrite decide_False by (intros [H _]; by apply H).
Qed.

(** X4: a row of [results] with the table verdict PASS carries one table
    name, found in both sets, in both table fields; a row with the table
    verdict FAIL carries a table logged as additional on one side and the
    sentinel on the other, and its column verdict and data type verdict are
    FAIL as well. *)
Theorem table_verdict_and_table_names (s : Session) :
  ∃ results,
    assemble s = inr results ∧
    ∀ r, r ∈ results →
      (STATUS_TABLE_NAME r = "PASS" →
         SOURCE_TABLE_NAME r = TARGET_TABLE_NAME r ∧
         SOURCE_TABLE_NAME r ∈ table1_set s ∧
         TARGET_TABLE_NAME r ∈ table2_set s) ∧
      (STATUS_TABLE_NAME r = "FAIL" →
         (SOURCE_TABLE_NAME r ∈ additional_tables_in_schema1 s ∧
            TARGET_TABLE_NAME r = "NULL" ∨
          SOURCE_TABLE_NAME r = "NULL" ∧
            TARGET_TABLE_NAME r ∈ additional_tables_in_schema2 s) ∧
         STATUS_COLUMN_NAME r = "FAIL" ∧
         STATUS_DATA_TYPE r = "FAIL").
Proof.
  exists (full_results s). split; [apply assemble_spec|].
  intros r (t & Ht & (c & _ & ->)%elem_of_table_rows)%elem_of_full_results.
  apply elem_of_union in Ht.
  unfold additional_tables_in_schema1, additional_tables_in_schema2.
  unfold compare_column, table1_of, table2_of.
  cbn [SOURCE_TABLE_NAME TARGET_TABLE_NAME STATUS_TABLE_NAME
       STATUS_COLUMN_NAME STATUS_DATA_TYPE].
  destruct (decide (t ∈ table1_set s)) as [H1|H1],
           (decide (t ∈ table2_set s)) as [H2|H2];
    cbn [side_columns_dict default]; rewrite ?side_empty;
    cbn [column_name data_type].
  - split; [done|]. unfold status_table_name.
    rewrite decide_False by (intros H; by apply H). done.
  - split; [unfold status_table_name; by rewrite decide_True|].
    intros _. rewrite status_column_name_sentinel_r, status_data_type_sentinel_r.
    split_and!; [|done..]. left. split; [|done]. by apply elem_of_difference.
  - split; [unfold status_table_name; by rewrite decide_True|].
    intros _. rewrite status_column_name_sentinel_l, status_data_type_sentinel_l.
    split_and!; [|done..]. right. split; [done|]. by apply elem_of_difference.
  - by destruct Ht.
Qed.

(** X5: the tables logged as additional on the two sides are disjoint,
    cover with the common tables the whole union, and are exactly the
    tables of the union whose table verdict is FAIL; none is logged exactly
    when the two schemas hold the same table names. *)
Theorem additional_tables_are_the_failing_tables (s : Session) :
  additional_tables_in_schema1 s ## additional_tables_in_schema2 s ∧
  all_tables s =
    additional_tables_in_schema1 s ∪ additional_tables_in_schema2 s ∪
    (table1_set s ∩ table2_set s) ∧
  (∀ t, t ∈ additional_tables_in_schema1 s ∪ additional_tables_in_schema2 s ↔
        t ∈ all_tables s ∧
        status_table_name (table1_of s t) (table2_of s t) = "FAIL") ∧
  (additional_tables_in_schema1 s = ∅ ∧ additional_tables_in_schema2 s = ∅ ↔
   table1_set s = table2_set s).
Proof.
  unfold additional_tables_in_schema1, additional_tables_in_schema2, all_tables.
  split_and!.
  - set_solver.
  - apply set_eq. intros t.
    destruct (decide (t ∈ table1_set s)), (decide (t ∈ table2_set s)); set_solver.
  - intros t. split.
    + intros Ht. assert (t ∈ table1_set s ∪ table2_set s) as Hall by set_solver.
      split; [done|]. apply status_table_name_snapshot; [done|]. set_solver.
    + intros [Hall Hfail]. apply status_table_name_snapshot in Hfail; [|done].
      destruct (decide (t ∈ table1_set s)), (decide (t ∈ table2_set s));
        set_solver.
  - split.
    + intros [H1 H2]. apply set_eq. intros t.
      destruct (decide (t ∈ table1_set s)), (decide (t ∈ table2_set s));
        set_solver.
    + intros ->. split; set_solver.
Qed.

(** ** The character length verdict with absent values *)

(** X6: the character length verdict of an assembled row is PASS when the
    length is absent on both sides, FAIL when it is absent on one side only,
    and with two present lengths PASS when they are equal or are the pair
    (16777216, 8388607) in this order. *)
Theorem char_max_length_rule
    (table1 table2_name : option string) (d1 d2 : gmap string Row) (c : string) :
  STATUS_CHARACTER_MAXIMUM_LENGTH (compare_column table1 table2_name d1 d2 c) =
  match d1 !! c ≫= CHARACTER_MAXIMUM_LENGTH,
        d2 !! c ≫= CHARACTER_MAXIMUM_LENGTH with
  | Some a, Some b =>
      if decide (a = b ∨ a = 16777216%Z ∧ b = 8388607%Z) then "PASS" else "FAIL"
  | None, None => "PASS"
  | _, _ => "FAIL"
  end.
Proof.
  unfold compare_column. cbn [STATUS_CHARACTER_MAXIMUM_LENGTH].
  rewrite !side_char_max_length.
  destruct (d1 !! c ≫= CHARACTER_MAXIMUM_LENGTH) as [a|],
           (d2 !! c ≫= CHARACTER_MAXIMUM_LENGTH) as [b|]; cbn [str_number].
  - apply status_char_max_length_numeric.
  - apply (status_char_max_length_absent_target (Some a)).
  - unfold status_char_max_length.
    rewrite decide_False by (intros [H _]; by apply H).
    rewrite decide_False; [done|]. intros [_ H]. by apply pretty_Z_ne_NULL in H.
  - apply (status_char_max_length_absent_target None).
Qed.

(** ** The data type verdict, completely *)

Lemma str_data_type_NULL (d : option string) :
  str_data_type d ≠ "NULL" ↔ plain_data_type d.
Proof.
  unfold plain_data_type. destruct d as [x|]; simpl.
  - case_decide as Hx.
    + split; [done|]. intros (y & [= <-] & Hy & _). done.
    + split.
      * intros Hn. exists x. done.
      * intros (y & [= <-] & _ & Hy). done.
  - split; [done|]. intros (y & [=] & _).
Qed.

(** X7: the data type verdict of an assembled row is PASS exactly when the
    two sides hold one and the same data type and that data type is neither
    the empty string nor the text NULL; a data type that is [None], empty or
    the text NULL on either side gives FAIL. *)
Theorem data_type_verdict_is_PASS_iff
    (table1 table2_name : option string) (d1 d2 : gmap string Row) (c : string) :
  STATUS_DATA_TYPE (compare_column table1 table2_name d1 d2 c) = "PASS" ↔
  ∃ x, d1 !! c ≫= DATA_TYPE = Some x ∧ d2 !! c ≫= DATA_TYPE = Some x ∧
       x ≠ "" ∧ x ≠ "NULL".
Proof.
  unfold compare_column. cbn [STATUS_DATA_TYPE].
  rewrite !side_data_type. unfold status_data_type.
  generalize (d1 !! c ≫= DATA_TYPE) (d2 !! c ≫= DATA_TYPE). intros o1 o2.
  case_decide as Hd.
  - destruct Hd as [(x & -> & Hx & Hx')%str_data_type_NULL
                    (y & -> & Hy & Hy')%str_data_type_NULL].
    rewrite !str_data_type_id by done.
    case_decide as Heq.
    + subst y. split; [|done]. intros _. by exists x.
    + split; [done|]. intros (z & [= <-] & [= <-] & _). done.
  - split; [done|]. intros (x & -> & -> & Hx & Hx').
    destruct Hd. rewrite !str_data_type_id by done. done.
Qed.

(** ** Which rows are left out of the report *)

Lemma status_scale_PASS (v w : option Z) :
  status_scale (str_number v) (str_number w) = "PASS" ↔ v = w.
Proof.
  rewrite status_scale_numeric.
  destruct v as [a|], w as [b|]; simpl; try (split; done).
  case_decide; split; try done; congruence.
Qed.

(** X8: all six verdicts of an assembled row are PASS, so that the row is
    left out of the report, exactly when the two table values are equal, the
    column is in both dictionaries under one name other than the text NULL,
    the data types are one non-empty text other than NULL, the lengths are
    equal or the tolerated pair, and the scales and the precisions are
    equal. *)
Theorem all_pass_iff
    (table1 table2_name : option string) (d1 d2 : gmap string Row) (c : string) :
  all_pass (compare_column table1 table2_name d1 d2 c) ↔
  table1 = table2_name ∧
  ∃ row1 row2,
    d1 !! c = Some row1 ∧ d2 !! c = Some row2 ∧
    COLUMN_NAME row1 = COLUMN_NAME row2 ∧ COLUMN_NAME row1 ≠ "NULL" ∧
    (∃ x, DATA_TYPE row1 = Some x ∧ DATA_TYPE row2 = Some x ∧
          x ≠ "" ∧ x ≠ "NULL") ∧
    (CHARACTER_MAXIMUM_LENGTH row1 = CHARACTER_MAXIMUM_LENGTH row2 ∨
     CHARACTER_MAXIMUM_LENGTH row1 = Some 16777216%Z ∧
     CHARACTER_MAXIMUM_LENGTH row2 = Some 8388607%Z) ∧
    NUMERIC_SCALE row1 = NUMERIC_SCALE row2 ∧
    NUMERIC_PRECISION row1 = NUMERIC_PRECISION row2.
Proof.
  unfold all_pass.
  rewrite data_type_verdict_is_PASS_iff, char_max_length_rule.
  unfold compare_column.
  cbn [STATUS_TABLE_NAME STATUS_COLUMN_NAME STATUS_SCALE STATUS_PRECISION].
  change (status_precision ?x ?y) with (status_scale x y).
  rewrite !side_scale, !side_precision, !status_scale_PASS, !side_column_name.
  assert (status_table_name table1 table2_name = "PASS" ↔ table1 = table2_name)
    as ->.
  { unfold status_table_name. case_decide as Hd; split; done. }
  destruct (d1 !! c) as [row1|], (d2 !! c) as [row2|]; simpl.
  - assert (status_column_name (COLUMN_NAME row1) (COLUMN_NAME row2) = "PASS" ↔
            COLUMN_NAME row1 = COLUMN_NAME row2 ∧ COLUMN_NAME row1 ≠ "NULL")
      as ->.
    { unfold status_column_name. repeat case_decide; split; try done.
      - naive_solver.
      - intros [Heq Hn]. contradiction.
      - intros [Heq Hn]. rewrite <-Heq in *. naive_solver. }
    assert ((match CHARACTER_MAXIMUM_LENGTH row1,
                   CHARACTER_MAXIMUM_LENGTH row2 with
             | Some a, Some b =>
                 if decide (a = b ∨ a = 16777216%Z ∧ b = 8388607%Z)
                 then "PASS" else "FAIL"
             | None, None => "PASS"
             | _, _ => "FAIL"
             end) = "PASS" ↔
            (CHARACTER_MAXIMUM_LENGTH row1 = CHARACTER_MAXIMUM_LENGTH row2 ∨
             CHARACTER_MAXIMUM_LENGTH row1 = Some 16777216%Z ∧
             CHARACTER_MAXIMUM_LENGTH row2 = Some 8388607%Z)) as ->.
    { destruct (CHARACTER_MAXIMUM_LENGTH row1) as [a|],
               (CHARACTER_MAXIMUM_LENGTH row2) as [b|].
      - case_decide as Hd; split; try done.
        + intros _. destruct Hd as [->|[-> ->]]; auto.
        + intros [[= ?]|[[= ?] [= ?]]]; destruct Hd; auto.
      - split; [done|]. intros [?|[? ?]]; done.
      - split; [done|]. intros [?|[? ?]]; done.
      - split; auto. }
    split.
    + intros (? & ? & ? & ? & ? & ?). split; [done|].
      exists row1, row2. naive_solver.
    + intros (? & r1 & r2 & [= <-] & [= <-] & ?). naive_solver.
  - rewrite status_column_name_sentinel_r. split; [by intros (_ & ? & _)|].
    intros (_ & ? & ? & _ & ? & _). done.
  - rewrite status_column_name_sentinel_l. split; [by intros (_ & ? & _)|].
    intros (_ & ? & ? & ? & _). done.
  - rewrite status_column_name_sentinel_l. split; [by intros (_ & ? & _)|].
    intros (_ & ? & ? & ? & _). done.
Qed.

(** ** Duplicate column names *)

(** X9: when the query returns several rows with one column name, the
    dictionary keeps the last of them; a name that no row has is not a key. *)
Theorem columns_dict_keeps_the_last_row (rows : list Row) (c : string) :
  columns_dict rows !! c = last (filter (λ row, COLUMN_NAME row = c) rows).
Proof.
  induction rows as [|row rows IH] using rev_ind.
  - unfold columns_dict. simpl. by rewrite lookup_empty.
  - rewrite columns_dict_snoc, lookup_insert, filter_app, last_app, <-IH.
    rewrite filter_cons, filter_nil.
    destruct (decide (COLUMN_NAME row = c)); done.
Qed.

(** ** Comparing a schema with an equal one *)

(** X10: when the two schemas hold the same table names, every table has
    the same column dictionary on both sides, no compared column is named
    NULL and every compared column has a non-empty data type other than the
    text NULL, the report is empty. *)
Theorem equal_schemas_give_an_empty_report (s : Session) :
  table1_set s = table2_set s →
  (∀ t, t ∈ table1_set s →
     columns_dict (table_columns s db1 schema1 t) =
     columns_dict (table_columns s db2 schema2 t)) →
  (∀ t row, t ∈ table1_set s → row ∈ table_columns s db1 schema1 t →
     COLUMN_NAME row ≠ "NULL" ∧ plain_data_type (DATA_TYPE row)) →
  main s = inr [].
Proof.
  intros Hsets Hdict Hrows. rewrite main_spec. f_equal.
  apply filter_none. intros r Hr Hfail. rewrite order_by_Permutation in Hr.
  apply (has_fail_not_all_pass r Hfail).
  apply elem_of_full_results in Hr as (t & Ht & Hr).
  assert (t ∈ table1_set s) as H1.
  { unfold all_tables in Ht. rewrite <-Hsets in Ht. set_solver. }
  assert (t ∈ table2_set s) as H2 by by rewrite <-Hsets.
  apply elem_of_table_rows in Hr as (c & Hc & ->).
  revert Hc. unfold table1_of, table2_of. rewrite !decide_True by done.
  cbn [side_columns_dict]. rewrite <-(Hdict t H1).
  intros [row Hrow]%elem_of_union%(or_ind id id)%elem_of_dom.
  destruct (columns_dict_lookup_Some _ _ _ Hrow) as [Hin Hname].
  destruct (Hrows t row H1 Hin) as [Hn (x & Hx & Hx1 & Hx2)].
  apply all_pass_iff. split; [done|].
  exists row, row. split_and!; try done.
  - by exists x.
  - by left.
Qed.

Lemma equal_schemas_give_an_empty_report_witness :
  table1_set session_same = table2_set session_same ∧
  main session_same = inr [].
Proof.
  assert (table1_set session_same = table2_set session_same) as Hsets
    by (vm_compute; reflexivity).
  split; [exact Hsets|].
  apply (equal_schemas_give_an_empty_report session_same Hsets).
  - intros t Ht. apply elem_of_table1_set in Ht. vm_compute in Ht.
    repeat (apply elem_of_cons in Ht as [Ht|Ht];
            [injection Ht as ->; vm_compute; reflexivity|]).
    by apply elem_of_nil in Ht.
  - intros t row Ht. apply elem_of_table1_set in Ht. vm_compute in Ht.
    repeat (apply elem_of_cons in Ht as [Ht|Ht];
            [injection Ht as ->; intros Hrow; vm_compute in Hrow;
             repeat (apply elem_of_cons in Hrow as [->|Hrow];
                     [split; [discriminate|];
                      eexists; split; [reflexivity|]; split; discriminate|]);
             by apply elem_of_nil in Hrow|]).
    by apply elem_of_nil in Ht.
Defined.

(** ** A table found in the target only *)

Lemma report_of_target_only_table (s : Session) (t : string) :
  t ∉ table1_set s → t ∈ table2_set s →
  filter (of_target_only_table t) (filter has_fail (order_by (full_results s)))
  ≡ₚ table_rows s t.
Proof.
  intros H1 H2.
  assert (∀ r, r ∈ table_rows s t → of_target_only_table t r ∧ has_fail r) as Ht.
  { intros r (Hs & Htg & Hst)%table_rows_table_names.
    unfold of_target_only_table, has_fail. rewrite Hs, Htg, Hst.
    unfold table1_of, table2_of, status_table_name.
    rewrite (decide_False (P := t ∈ table1_set s)) by done.
    rewrite (decide_True (P := t ∈ table2_set s)) by done.
    rewrite decide_True by done. auto. }
  rewrite order_by_Permutation, list_filter_filter.
  rewrite (filter_ext_elem_of _ (of_target_only_table t)).
  - unfold full_results. rewrite (filter_bind_single _ _ _ t).
    + done.
    + apply NoDup_sorted.
    + apply elem_of_sorted, elem_of_union. by right.
    + intros r Hr. by apply Ht.
    + intros u r Hu%elem_of_sorted Hne Hr Hp. apply Hne.
      apply (table_rows_origin s t u r); auto.
  - intros r (u & Hu & Hr)%elem_of_full_results. split; [by intros [? _]|].
    intros Hp. split; [done|].
    assert (u = t) as -> by (apply (table_rows_origin s t u r); auto).
    by apply Ht.
Qed.

Lemma status_char_max_length_absent_source (v : option Z) :
  status_char_max_length "NULL" (str_number v) = spec_numeric_rule None v.
Proof.
  unfold status_char_max_length.
  rewrite decide_False by (intros [H _]; by apply H).
  destruct v as [n|]; [|done]. cbn [str_number spec_numeric_rule].
  rewrite decide_False; [done|]. intros [_ H]. by apply pretty_Z_ne_NULL in H.
Qed.

Lemma compare_column_target_only (t : string) (dict : gmap string Row)
    (c : string) (d : ColumnRow) :
  dict !! c = Some (select d) →
  compare_column None (Some t) ∅ dict c = target_only_row t (as_reported d).
Proof.
  intros Hrow. unfold compare_column, target_only_row, side.
  rewrite Hrow, lookup_empty.
  destruct (as_reported_other_fields d) as (-> & -> & -> & ->).
  rewrite <-str_data_type_as_reported.
  cbn [data_type scale precision char_max_length column_name default select
       COLUMN_NAME DATA_TYPE NUMERIC_SCALE NUMERIC_PRECISION
       CHARACTER_MAXIMUM_LENGTH].
  f_equal.
  - apply status_char_max_length_absent_source.
  - apply (status_scale_numeric None).
  - exact (status_scale_numeric None _).
Qed.

(** ** The descriptors behind the rows of a one-sided table *)

Lemma elem_of_table_columns (s : Session) (db schema t : string) (row : Row) :
  row ∈ table_columns s db schema t ↔
  ∃ d, d ∈ information_schema_columns s db ∧ c_TABLE_SCHEMA d = schema ∧
       c_TABLE_NAME d = t ∧ (c_COLUMN_NAME d ∉ EXCLUDED_COLUMNS) ∧
       row = select d.
Proof.
  unfold table_columns. rewrite list_elem_of_fmap. split.
  - intros (d & -> & Hd). rewrite !list_elem_of_filter in Hd.
    destruct Hd as (? & ? & ? & ?). by exists d.
  - intros (d & ? & ? & ? & ? & ->). exists d. split; [done|].
    by rewrite !list_elem_of_filter.
Qed.

(** For each key of the dictionary of a table, in any order, a descriptor
    of the catalog that the dictionary holds under that key. *)
Lemma dictionary_descriptors (s : Session) (db schema t : string)
    (cs : list string) :
  (∀ c, c ∈ cs → c ∈ column_names s db schema t) →
  ∃ ds,
    (∀ d, d ∈ ds →
       d ∈ information_schema_columns s db ∧ c_TABLE_SCHEMA d = schema ∧
       c_TABLE_NAME d = t ∧ (c_COLUMN_NAME d ∉ EXCLUDED_COLUMNS)) ∧
    c_COLUMN_NAME <$> ds = cs ∧
    ∀ (row_of : string → ResultRow) (expected : ColumnRow → ResultRow),
      (∀ c d, columns_dict (table_columns s db schema t) !! c = Some (select d) →
              row_of c = expected d) →
      row_of <$> cs = expected <$> ds.
Proof.
  induction cs as [|c cs IH]; intros Hcs.
  - exists []. split_and!; [|done..]. intros d Hd. by apply elem_of_nil in Hd.
  - destruct IH as (ds & Hds & Hnames & Hrows).
    { intros c' Hc'. apply Hcs. by right. }
    assert (c ∈ column_names s db schema t) as Hc by (apply Hcs; left).
    unfold column_names in Hc. rewrite <-dom_columns_dict in Hc.
    apply elem_of_dom in Hc as [row Hrow].
    destruct (columns_dict_lookup_Some _ _ _ Hrow) as [Hin Hname].
    apply elem_of_table_columns in Hin as (d & Hd & Hschema & Htable & Hex & ->).
    exists (d :: ds). split_and!.
    + intros d' [->|Hd']%elem_of_cons; [done|by apply Hds].
    + rewrite fmap_cons, Hnames. f_equal. exact Hname.
    + intros row_of expected Hexp. rewrite !fmap_cons.
      f_equal; [by apply Hexp|by apply Hrows].
Qed.

Lemma catalog_column_is_listed (s : Session) (db schema t : string)
    (ds : list ColumnRow) (d : ColumnRow) :
  c_COLUMN_NAME <$> ds = sorted (column_names s db schema t) →
  d ∈ information_schema_columns s db → c_TABLE_SCHEMA d = schema →
  c_TABLE_NAME d = t → c_COLUMN_NAME d ∉ EXCLUDED_COLUMNS →
  c_COLUMN_NAME d ∈ c_COLUMN_NAME <$> ds.
Proof.
  intros -> Hd Hschema Htable Hex.
  apply elem_of_sorted, elem_of_column_names. split; [done|]. by exists d.
Qed.

(** X11: for a table found in the target only, the rows of the report that
    carry it are, up to order, the expected rows of a list of descriptors
    of the target catalog: one descriptor for each column name that the
    catalog has for the table outside the excluded names, and no other.
    The expected row has the table verdict FAIL, the sentinel in every
    source field and the values of the descriptor in the target fields,
    where an empty data type is shown as the sentinel; its column verdict
    and data type verdict are FAIL, and its length, scale and precision
    verdicts are PASS exactly where the descriptor has no such value. *)
Theorem target_only_table_has_one_row_per_column (s : Session) (t : string) :
  t ∉ table1_set s → t ∈ table2_set s →
  ∃ report descriptors,
    main s = inr report ∧
    (∀ d, d ∈ descriptors →
       d ∈ information_schema_columns s db2 ∧ c_TABLE_SCHEMA d = schema2 ∧
       c_TABLE_NAME d = t ∧ (c_COLUMN_NAME d ∉ EXCLUDED_COLUMNS)) ∧
    (∀ d, d ∈ information_schema_columns s db2 → c_TABLE_SCHEMA d = schema2 →
       c_TABLE_NAME d = t → c_COLUMN_NAME d ∉ EXCLUDED_COLUMNS →
       c_COLUMN_NAME d ∈ c_COLUMN_NAME <$> descriptors) ∧
    NoDup (c_COLUMN_NAME <$> descriptors) ∧
    filter (of_target_only_table t) report ≡ₚ
      (λ d, target_only_row t (as_reported d)) <$> descriptors.
Proof.
  intros H1 H2.
  destruct (dictionary_descriptors s db2 schema2 t
              (sorted (column_names s db2 schema2 t)))
    as (ds & Hds & Hnames & Hrows).
  { intros c. by rewrite elem_of_sorted. }
  exists (filter has_fail (order_by (full_results s))), ds.
  split_and!.
  - apply main_spec.
  - exact Hds.
  - intros d. by apply catalog_column_is_listed.
  - rewrite Hnames. apply NoDup_sorted.
  - rewrite report_of_target_only_table, table_rows_target_only by done.
    apply reflexive_eq, Hrows. intros c d. apply compare_column_target_only.
Qed.

Lemma target_only_table_has_one_row_per_column_witness :
  ("NEW" ∉ table1_set session_drift) ∧
  "NEW" ∈ table2_set session_drift ∧
  ∃ report descriptors,
    main session_drift = inr report ∧
    (∀ d, d ∈ descriptors →
       d ∈ information_schema_columns session_drift db2 ∧
       c_TABLE_SCHEMA d = schema2 ∧ c_TABLE_NAME d = "NEW" ∧
       (c_COLUMN_NAME d ∉ EXCLUDED_COLUMNS)) ∧
    (∀ d, d ∈ information_schema_columns session_drift db2 →
       c_TABLE_SCHEMA d = schema2 → c_TABLE_NAME d = "NEW" →
       c_COLUMN_NAME d ∉ EXCLUDED_COLUMNS →
       c_COLUMN_NAME d ∈ c_COLUMN_NAME <$> descriptors) ∧
    NoDup (c_COLUMN_NAME <$> descriptors) ∧
    filter (of_target_only_table "NEW") report ≡ₚ
      (λ d, target_only_row "NEW" (as_reported d)) <$> descriptors.
Proof.
  assert ("NEW" ∉ table1_set session_drift) as H1 by (vm_compute; discriminate).
  assert ("NEW" ∈ table2_set session_drift) as H2 by (vm_compute; reflexivity).
  split; [exact H1|]. split; [exact H2|].
  exact (target_only_table_has_one_row_per_column session_drift "NEW" H1 H2).
Defined.

(** ** A table found in the source only *)

(** X17: for a table found in the source only, the rows of the report that
    carry it are, up to order, the expected rows of a list of descriptors
    of the source catalog: one descriptor for each column name that the
    catalog has for the table outside the excluded names, and no other.
    The expected row has the table verdict FAIL, the values of the
    descriptor in the source fields, where an empty data type is shown as
    the sentinel, and the sentinel in every target field; its column
    verdict and data type verdict are FAIL, and its length, scale and
    precision verdicts are PASS exactly where the descriptor has no such
    value. *)
Theorem source_only_table_has_one_row_per_column (s : Session) (t : string) :
  t ∈ table1_set s → t ∉ table2_set s →
  ∃ report descriptors,
    main s = inr report ∧
    (∀ d, d ∈ descriptors →
       d ∈ information_schema_columns s db1 ∧ c_TABLE_SCHEMA d = schema1 ∧
       c_TABLE_NAME d = t ∧ (c_COLUMN_NAME d ∉ EXCLUDED_COLUMNS)) ∧
    (∀ d, d ∈ information_schema_columns s db1 → c_TABLE_SCHEMA d = schema1 →
       c_TABLE_NAME d = t → c_COLUMN_NAME d ∉ EXCLUDED_COLUMNS →
       c_COLUMN_NAME d ∈ c_COLUMN_NAME <$> descriptors) ∧
    NoDup (c_COLUMN_NAME <$> descriptors) ∧
    filter (of_source_only_table t) report ≡ₚ
      (λ d, source_only_row t (as_reported d)) <$> descriptors.
Proof.
  intros H1 H2.
  destruct (dictionary_descriptors s db1 schema1 t
              (sorted (column_names s db1 schema1 t)))
    as (ds & Hds & Hnames & Hrows).
  { intros c. by rewrite elem_of_sorted. }
  exists (filter has_fail (order_by (full_results s))), ds.
  split_and!.
  - apply main_spec.
  - exact Hds.
  - intros d. by apply catalog_column_is_listed.
  - rewrite Hnames. apply NoDup_sorted.
  - rewrite report_of_source_only_table, table_rows_source_only by done.
    apply reflexive_eq, Hrows. intros c d. apply compare_column_source_only.
Qed.

Lemma source_only_table_has_one_row_per_column_witness :
  "A" ∈ table1_set session_demo ∧
  ("A" ∉ table2_set session_demo) ∧
  ∃ report descriptors,
    main session_demo = inr report ∧
    (∀ d, d ∈ descriptors →
       d ∈ information_schema_columns session_demo db1 ∧
       c_TABLE_SCHEMA d = schema1 ∧ c_TABLE_NAME d = "A" ∧
       (c_COLUMN_NAME d ∉ EXCLUDED_COLUMNS)) ∧
    (∀ d, d ∈ information_schema_columns session_demo db1 →
       c_TABLE_SCHEMA d = schema1 → c_TABLE_NAME d = "A" →
       c_COLUMN_NAME d ∉ EXCLUDED_COLUMNS →
       c_COLUMN_NAME d ∈ c_COLUMN_NAME <$> descriptors) ∧
    NoDup (c_COLUMN_NAME <$> descriptors) ∧
    filter (of_source_only_table "A") report ≡ₚ
      (λ d, source_only_row "A" (as_reported d)) <$> descriptors.
Proof.
  assert ("A" ∈ table1_set session_demo) as H1 by (vm_compute; reflexivity).
  assert ("A" ∉ table2_set session_demo) as H2 by (vm_compute; discriminate).
  split; [exact H1|]. split; [exact H2|].
  exact (source_only_table_has_one_row_per_column session_demo "A" H1 H2).
Defined.

(** ** A table found on both sides *)

Lemma table_rows_two_sided (s : Session) (t : string) :
  t ∈ table1_set s → t ∈ table2_set s →
  table_rows s t =
  compare_column (Some t) (Some t)
    (columns_dict (table_columns s db1 schema1 t))
    (columns_dict (table_columns s db2 schema2 t))
    <$> sorted (column_names s db1 schema1 t ∪ column_names s db2 schema2 t).
Proof.
  intros H1 H2. unfold table_rows, compare_table, table1_of, table2_of.
  rewrite !decide_True by done. simpl. by rewrite !dom_columns_dict.
Qed.

(** X12: for a table found on both sides, the rows of the report that carry
    it in both table fields are the rows with a FAIL verdict among one row
    for each column name returned by either query; each has the table
    verdict PASS. *)
Theorem two_sided_table_reports_its_failing_columns (s : Session) (t : string) :
  t ∈ table1_set s → t ∈ table2_set s →
  let row_of :=
    compare_column (Some t) (Some t)
      (columns_dict (table_columns s db1 schema1 t))
      (columns_dict (table_columns s db2 schema2 t)) in
  ∃ report,
    main s = inr report ∧
    filter (of_two_sided_table t) report ≡ₚ
      filter has_fail
        (row_of <$> sorted (column_names s db1 schema1 t ∪
                            column_names s db2 schema2 t)) ∧
    ∀ r, r ∈ filter (of_two_sided_table t) report → STATUS_TABLE_NAME r = "PASS".
Proof.
  intros H1 H2 row_of.
  exists (filter has_fail (order_by (full_results s))).
  assert (∀ r, r ∈ table_rows s t →
            of_two_sided_table t r ∧ STATUS_TABLE_NAME r = "PASS") as Ht.
  { intros r (Hs & Htg & Hst)%table_rows_table_names.
    unfold of_two_sided_table. rewrite Hs, Htg, Hst.
    unfold table1_of, table2_of, status_table_name.
    rewrite !decide_True by done.
    by rewrite decide_False by (intros H; by apply H). }
  assert (∀ u r, u ∈ all_tables s → r ∈ table_rows s u →
            of_two_sided_table t r → u = t) as Horigin.
  { intros u r Hu (Hs & Htg & _)%table_rows_table_names [Hs' Ht'].
    rewrite Hs' in Hs. rewrite Ht' in Htg. revert Hs Htg.
    apply elem_of_union in Hu. unfold table1_of, table2_of.
    repeat case_decide; simpl; naive_solver. }
  assert (filter (of_two_sided_table t)
            (filter has_fail (order_by (full_results s)))
          ≡ₚ filter has_fail (table_rows s t)) as Hperm.
  { rewrite order_by_Permutation, list_filter_filter.
    rewrite (list_filter_iff _ (λ a, has_fail a ∧ of_two_sided_table t a))
      by (intros; apply and_comm).
    rewrite <-list_filter_filter. apply reflexive_eq. f_equal.
    unfold full_results. apply (filter_bind_single _ _ _ t).
    - apply NoDup_sorted.
    - apply elem_of_sorted, elem_of_union. by left.
    - intros r Hr. by apply Ht.
    - intros u r Hu%elem_of_sorted Hne Hr Hp. apply Hne. by eapply Horigin. }
  split_and!.
  - apply main_spec.
  - by rewrite Hperm, table_rows_two_sided.
  - intros r Hr. rewrite Hperm in Hr.
    apply list_elem_of_filter in Hr as [_ Hr]. by apply Ht.
Qed.

Lemma two_sided_table_reports_its_failing_columns_witness :
  "T" ∈ table1_set session_drift ∧
  "T" ∈ table2_set session_drift ∧
  ∃ report,
    main session_drift = inr report ∧
    filter (of_two_sided_table "T") report ≡ₚ
      filter has_fail
        (compare_column (Some "T") (Some "T")
           (columns_dict (table_columns session_drift db1 schema1 "T"))
           (columns_dict (table_columns session_drift db2 schema2 "T"))
         <$> sorted (column_names session_drift db1 schema1 "T" ∪
                     column_names session_drift db2 schema2 "T")) ∧
    ∀ r, r ∈ filter (of_two_sided_table "T") report →
         STATUS_TABLE_NAME r = "PASS".
Proof.
  assert ("T" ∈ table1_set session_drift) as H1 by (vm_compute; reflexivity).
  assert ("T" ∈ table2_set session_drift) as H2 by (vm_compute; reflexivity).
  split; [exact H1|]. split; [exact H2|].
  exact (two_sided_table_reports_its_failing_columns session_drift "T" H1 H2).
Defined.

(** X13: a column that only one side of a two-sided table has is always in
    the report: its row has the table verdict PASS, the column verdict and
    the data type verdict FAIL, the column name on the side that has it and
    the sentinel in every field of the other side. *)
Theorem column_missing_on_one_side_is_reported (s : Session) (t c : string) :
  t ∈ table1_set s → t ∈ table2_set s →
  c ∈ column_names s db1 schema1 t ∧ (c ∉ column_names s db2 schema2 t) ∨
  (c ∉ column_names s db1 schema1 t) ∧ c ∈ column_names s db2 schema2 t →
  let r :=
    compare_column (Some t) (Some t)
      (columns_dict (table_columns s db1 schema1 t))
      (columns_dict (table_columns s db2 schema2 t)) c in
  ∃ report,
    main s = inr report ∧ r ∈ report ∧
    STATUS_TABLE_NAME r = "PASS" ∧
    STATUS_COLUMN_NAME r = "FAIL" ∧
    STATUS_DATA_TYPE r = "FAIL" ∧
    (c ∈ column_names s db1 schema1 t →
       SOURCE_COLUMN_NAME r = c ∧ TARGET_COLUMN_NAME r = "NULL" ∧
       TARGET_DATA_TYPE r = "NULL" ∧
       TARGET_CHARACTER_MAXIMUM_LENGTH r = "NULL" ∧
       TARGET_SCALE r = "NULL" ∧ TARGET_PRECISION r = "NULL") ∧
    (c ∈ column_names s db2 schema2 t →
       TARGET_COLUMN_NAME r = c ∧ SOURCE_COLUMN_NAME r = "NULL" ∧
       SOURCE_DATA_TYPE r = "NULL" ∧
       SOURCE_CHARACTER_MAXIMUM_LENGTH r = "NULL" ∧
       SOURCE_SCALE r = "NULL" ∧ SOURCE_PRECISION r = "NULL").
Proof.
  intros H1 H2 Hc r.
  assert (STATUS_TABLE_NAME r = "PASS") as Htable.
  { unfold r, compare_column, status_table_name. simpl.
    by rewrite decide_False by (intros H; by apply H). }
  assert (r ∈ table_rows s t) as Hr.
  { rewrite table_rows_two_sided by done. apply list_elem_of_fmap.
    exists c. split; [done|]. apply elem_of_sorted, elem_of_union. tauto. }
  assert (STATUS_COLUMN_NAME r = "FAIL" →
          r ∈ filter has_fail (order_by (full_results s))) as Hin.
  { intros Hfail. apply report_rows. split; [unfold has_fail; auto|].
    exists t. split; [|done]. apply elem_of_union. by left. }
  exists (filter has_fail (order_by (full_results s))).
  unfold column_names in Hc. rewrite <-!dom_columns_dict in Hc.
  unfold column_names. rewrite <-!dom_columns_dict.
  destruct Hc as [[[row Hrow]%elem_of_dom Hnone%not_elem_of_dom]
                 |[Hnone%not_elem_of_dom [row Hrow]%elem_of_dom]].
  - destruct (columns_dict_lookup_Some _ _ _ Hrow) as [_ Hname].
    assert (STATUS_COLUMN_NAME r = "FAIL") as Hcol.
    { unfold r, compare_column, side. rewrite Hnone. simpl.
      apply status_column_name_sentinel_r. }
    split_and!; try done.
    + apply main_spec.
    + by apply Hin.
    + unfold r, compare_column, side. rewrite Hnone. simpl.
      apply status_data_type_sentinel_r.
    + intros _. unfold r, compare_column, side. rewrite Hrow, Hnone. done.
    + intros [? Hsome]%elem_of_dom. congruence.
  - destruct (columns_dict_lookup_Some _ _ _ Hrow) as [_ Hname].
    assert (STATUS_COLUMN_NAME r = "FAIL") as Hcol.
    { unfold r, compare_column, side. rewrite Hnone. simpl.
      apply status_column_name_sentinel_l. }
    split_and!; try done.
    + apply main_spec.
    + by apply Hin.
    + unfold r, compare_column, side. rewrite Hnone. simpl.
      apply status_data_type_sentinel_l.
    + intros [? Hsome]%elem_of_dom. congruence.
    + intros _. unfold r, compare_column, side. rewrite Hrow, Hnone. done.
Qed.

Lemma column_missing_on_one_side_is_reported_witness :
  let r :=
    compare_column (Some "T") (Some "T")
      (columns_dict (table_columns session_drift db1 schema1 "T"))
      (columns_dict (table_columns session_drift db2 schema2 "T")) "EXTRA" in
  "T" ∈ table1_set session_drift ∧
  "T" ∈ table2_set session_drift ∧
  "EXTRA" ∈ column_names session_drift db1 schema1 "T" ∧
  ("EXTRA" ∉ column_names session_drift db2 schema2 "T") ∧
  ∃ report,
    main session_drift = inr report ∧ r ∈ report ∧
    STATUS_TABLE_NAME r = "PASS" ∧
    STATUS_COLUMN_NAME r = "FAIL" ∧
    STATUS_DATA_TYPE r = "FAIL" ∧
    ("EXTRA" ∈ column_names session_drift db1 schema1 "T" →
       SOURCE_COLUMN_NAME r = "EXTRA" ∧ TARGET_COLUMN_NAME r = "NULL" ∧
       TARGET_DATA_TYPE r = "NULL" ∧
       TARGET_CHARACTER_MAXIMUM_LENGTH r = "NULL" ∧
       TARGET_SCALE r = "NULL" ∧ TARGET_PRECISION r = "NULL") ∧
    ("EXTRA" ∈ column_names session_drift db2 schema2 "T" →
       TARGET_COLUMN_NAME r = "EXTRA" ∧ SOURCE_COLUMN_NAME r = "NULL" ∧
       SOURCE_DATA_TYPE r = "NULL" ∧
       SOURCE_CHARACTER_MAXIMUM_LENGTH r = "NULL" ∧
       SOURCE_SCALE r = "NULL" ∧ SOURCE_PRECISION r = "NULL").
Proof.
  intros r.
  assert ("T" ∈ table1_set session_drift) as H1 by (vm_compute; reflexivity).
  assert ("T" ∈ table2_set session_drift) as H2 by (vm_compute; reflexivity).
  assert ("EXTRA" ∈ column_names session_drift db1 schema1 "T") as H3
    by (vm_compute; reflexivity).
  assert ("EXTRA" ∉ column_names session_drift db2 schema2 "T") as H4
    by (vm_compute; discriminate).
  split; [exact H1|]. split; [exact H2|]. split; [exact H3|]. split; [exact H4|].
  exact (column_missing_on_one_side_is_reported session_drift "T" "EXTRA"
           H1 H2 (or_introl (conj H3 H4))).
Defined.

(** ** No row twice *)

Lemma table_rows_same_table (s : Session) (u v : string) (r : ResultRow) :
  u ∈ all_tables s → v ∈ all_tables s →
  r ∈ table_rows s u → r ∈ table_rows s v → u = v.
Proof.
  intros Hu Hv (Hs & Ht & _)%table_rows_table_names
               (Hs' & Ht' & _)%table_rows_table_names.
  rewrite Hs in Hs'. rewrite Ht in Ht'. revert Hs' Ht'.
  apply elem_of_union in Hu. apply elem_of_union in Hv.
  unfold table1_of, table2_of.
  repeat case_decide; simpl; naive_solver.
Qed.

Lemma NoDup_table_rows (s : Session) (t : string) : NoDup (table_rows s t).
Proof.
  unfold table_rows, compare_table.
  apply NoDup_fmap_2_strong; [|apply NoDup_sorted].
  intros c c' Hc%elem_of_sorted Hc'%elem_of_sorted Heq.
  pose proof (f_equal SOURCE_COLUMN_NAME Heq) as Hs.
  pose proof (f_equal TARGET_COLUMN_NAME Heq) as Ht.
  unfold compare_column in Hs, Ht.
  cbn [SOURCE_COLUMN_NAME TARGET_COLUMN_NAME] in Hs, Ht.
  rewrite !side_column_name in Hs, Ht.
  apply elem_of_union in Hc. apply elem_of_union in Hc'.
  rewrite !elem_of_dom in Hc, Hc'.
  destruct (side_columns_dict_name s db1 schema1 (table1_of s t) c) as [E1|E1],
    (side_columns_dict_name s db1 schema1 (table1_of s t) c') as [E1'|E1'],
    (side_columns_dict_name s db2 schema2 (table2_of s t) c) as [E2|E2],
    (side_columns_dict_name s db2 schema2 (table2_of s t) c') as [E2'|E2'];
    rewrite ?E1, ?E1', ?E2, ?E2' in Hs, Ht, Hc, Hc'; simpl in Hs, Ht;
    try congruence;
    try (destruct Hc as [[? ?]|[? ?]]; congruence);
    try (destruct Hc' as [[? ?]|[? ?]]; congruence).
Qed.

(** X14: no row is twice in the list [results], and so none is twice in the
    report: a row determines the table and the column it was made for. *)
Theorem results_have_no_duplicate_row (s : Session) :
  ∃ results report,
    assemble s = inr results ∧
    main s = inr report ∧
    NoDup results ∧ NoDup report.
Proof.
  exists (full_results s), (filter has_fail (order_by (full_results s))).
  split; [apply assemble_spec|]. split; [apply main_spec|].
  assert (NoDup (full_results s)) as Hnd.
  { unfold full_results. apply NoDup_bind.
    - intros u v r Hu%elem_of_sorted Hv%elem_of_sorted. by apply table_rows_same_table.
    - intros t _. apply NoDup_table_rows.
    - apply NoDup_sorted. }
  split; [done|]. apply NoDup_filter. by rewrite order_by_Permutation.
Qed.

(** ** The order of the iterations *)

(** X15: the loop visits every table of the union once, in ascending order
    of the names, and [results] is the concatenation, in this order, of the
    rows of the tables; the rows of a table are those of the column names of
    both sides, each once, in ascending order. *)
Theorem results_follow_the_sorted_tables_and_columns (s : Session) :
  ∃ tables,
    Sorted String.le tables ∧ NoDup tables ∧
    (∀ t, t ∈ tables ↔ t ∈ table1_set s ∨ t ∈ table2_set s) ∧
    assemble s = inr (tables ≫= table_rows s) ∧
    ∀ t, t ∈ tables →
      ∃ columns,
        Sorted String.le columns ∧ NoDup columns ∧
        (∀ c, c ∈ columns ↔
           t ∈ table1_set s ∧ c ∈ column_names s db1 schema1 t ∨
           t ∈ table2_set s ∧ c ∈ column_names s db2 schema2 t) ∧
        table_rows s t =
          compare_column (table1_of s t) (table2_of s t)
            (side_columns_dict s db1 schema1 (table1_of s t))
            (side_columns_dict s db2 schema2 (table2_of s t)) <$> columns.
Proof.
  exists (sorted (all_tables s)). split_and!.
  - apply sorted_Sorted.
  - apply NoDup_sorted.
  - intros t. unfold all_tables. by rewrite elem_of_sorted, elem_of_union.
  - apply assemble_spec.
  - intros t _.
    exists (sorted (dom (side_columns_dict s db1 schema1 (table1_of s t)) ∪
                    dom (side_columns_dict s db2 schema2 (table2_of s t)))).
    split_and!.
    + apply sorted_Sorted.
    + apply NoDup_sorted.
    + intros c. rewrite elem_of_sorted, elem_of_union, !dom_side_columns_dict.
      unfold table1_of, table2_of.
      destruct (decide (t ∈ table1_set s)), (decide (t ∈ table2_set s));
        rewrite ?elem_of_empty; tauto.
    + done.
Qed.

(** ** Audit columns do not count *)

Lemma filter_comm {A} (P Q : A → Prop) `{!∀ x, Decision (P x)}
    `{!∀ x, Decision (Q x)} (l : list A) :
  filter P (filter Q l) = filter Q (filter P l).
Proof.
  rewrite !list_filter_filter. apply list_filter_iff. intros x. apply and_comm.
Qed.

Lemma table_columns_audit_first (s : Session) (db schema t : string) :
  table_columns s db schema t =
  select <$>
    filter (λ r, c_TABLE_NAME r = t)
      (filter (λ r, c_TABLE_SCHEMA r = schema)
         (filter (λ r, c_COLUMN_NAME r ∉ EXCLUDED_COLUMNS)
            (information_schema_columns s db))).
Proof.
  unfold table_columns. f_equal.
  rewrite (filter_comm (λ r, c_COLUMN_NAME r ∉ EXCLUDED_COLUMNS)
             (λ r, c_TABLE_NAME r = t)).
  f_equal. apply filter_comm.
Qed.

(** X16: two catalogs with the same table rows, whose column rows differ
    only in rows of excluded columns, give the same list [results] and the
    same report: descriptors of audit columns are never read. *)
Theorem audit_columns_do_not_change_the_report (s s' : Session) :
  (∀ db, information_schema_tables s db = information_schema_tables s' db) →
  (∀ db,
     filter (λ r, c_COLUMN_NAME r ∉ EXCLUDED_COLUMNS)
       (information_schema_columns s db) =
     filter (λ r, c_COLUMN_NAME r ∉ EXCLUDED_COLUMNS)
       (information_schema_columns s' db)) →
  assemble s = assemble s' ∧ main s = main s'.
Proof.
  intros Htables Hcolumns.
  assert (table1_set s = table1_set s') as H1.
  { unfold table1_set, table_list. by rewrite Htables. }
  assert (table2_set s = table2_set s') as H2.
  { unfold table2_set, table_list. by rewrite Htables. }
  assert (∀ db schema t,
            table_columns s db schema t = table_columns s' db schema t) as Hc.
  { intros db schema t. by rewrite !table_columns_audit_first, Hcolumns. }
  assert (full_results s = full_results s') as Hfull.
  { unfold full_results, all_tables. rewrite H1, H2.
    apply list_bind_ext; [|done]. intros t.
    unfold table_rows, compare_table, table1_of, table2_of. rewrite H1, H2.
    assert (∀ db schema o,
              side_columns_dict s db schema o = side_columns_dict s' db schema o)
      as Hd.
    { intros db schema [u|]; simpl; [by rewrite Hc|done]. }
    by rewrite !Hd. }
  split.
  - by rewrite !assemble_spec, Hfull.
  - by rewrite !main_spec, Hfull.
Qed.

Lemma audit_columns_do_not_change_the_report_witness :
  (∀ db, information_schema_tables session_demo db =
         information_schema_tables session_demo_other_audit db) ∧
  (∀ db,
     filter (λ r, c_COLUMN_NAME r ∉ EXCLUDED_COLUMNS)
       (information_schema_columns session_demo db) =
     filter (λ r, c_COLUMN_NAME r ∉ EXCLUDED_COLUMNS)
       (information_schema_columns session_demo_other_audit db)) ∧
  assemble session_demo = assemble session_demo_other_audit ∧
  main session_demo = main session_demo_other_audit.
Proof.
  assert (∀ db, information_schema_tables session_demo db =
                information_schema_tables session_demo_other_audit db) as H1.
  { intros db. reflexivity. }
  assert (∀ db,
            filter (λ r, c_COLUMN_NAME r ∉ EXCLUDED_COLUMNS)
              (information_schema_columns session_demo db) =
            filter (λ r, c_COLUMN_NAME r ∉ EXCLUDED_COLUMNS)
              (information_schema_columns session_demo_other_audit db)) as H2.
  { intros db. unfold session_demo, session_demo_other_audit, snapshot.
    cbn [information_schema_columns].
    destruct (decide (db = db1)); [vm_compute; reflexivity|].
    destruct (decide (db = db2)); vm_compute; reflexivity. }
  split; [exact H1|]. split; [exact H2|].
  exact (audit_columns_do_not_change_the_report
           session_demo session_demo_other_audit H1 H2).
Defined.
